(** * Gemini-calc: the credential store and the calculation client

    A shallow embedding of [Gemini_calc.py].  The program is a desktop
    calculator that keeps an API credential encrypted on disk
    ([APIKeyManager]), sends each calculation as a prompt to a remote model
    ([CalculatorAPI]) and shows the answer ([CalculatorApp]).

    What the program takes from its platform is kept apart from what it
    does itself:
    - the file system, the network, the message boxes and the source of
      randomness are fields of one [world] record that every operation
      threads through;
    - [cryptography.fernet] and the [float] builtin are interfaces
      ([FernetSuite], [Platform]); the laws of the cipher are stated as
      classes of their own and appear as hypotheses where they are used;
    - the format of a Fernet token (its base64 text, its layout, its
      padding) is written out over AES and HMAC, which stay an interface
      ([Primitives]);
    - UTF-8, the codec behind [str.encode] and [bytes.decode], is written
      out in full.

    Python values: a [str] is the list of its code points, a [bytes] the
    list of its octets; exceptions are values of [exn]; a method is a
    function from the receiver and the world to an outcome, the receiver
    and the world. *)

From Stdlib Require Import ZArith List String Ascii Lia DecimalString.
From stdpp Require Import base option list gmap strings fin_maps.

Local Open Scope Z_scope.
Set Warnings "-register-all".

(** ** Strings and bytes *)

(** A Python [str]: its code points, in order. *)
Definition str := list Z.

(** A Python [bytes]: its octets, in order. *)
Definition bytes := list Z.

Definition is_byte (b : Z) : Prop := 0 <= b < 256.
Definition is_bytes (b : bytes) : Prop := Forall is_byte b.

(** A string literal of the source, as a [str] (the literals of this
    program are ASCII). *)
Definition lit (s : string) : str :=
  (fun a => Z.of_N (N_of_ascii a)) <$> list_ascii_of_string s.

(** [x in s] for two strings. *)
Definition contains (needle hay : str) : Prop :=
  exists pre post, hay = pre ++ needle ++ post.

(** [str(n)] for an [int]. *)
Definition int_str (n : Z) : str := lit (NilZero.string_of_int (Z.to_int n)).

(** ** UTF-8, the codec of [str.encode()] and [bytes.decode()] *)

Definition is_surrogate (c : Z) : bool := (0xD800 <=? c) && (c <=? 0xDFFF).

(** A code point UTF-8 has a form for: any but the surrogates. *)
Definition is_scalar (c : Z) : Prop :=
  0 <= c < 0x110000 /\ is_surrogate c = false.

(** The octets of one code point; [None] where CPython raises
    [UnicodeEncodeError] (a lone surrogate) or where the number is no code
    point at all. *)
Definition utf8_encode_cp (c : Z) : option bytes :=
  if c <? 0 then None
  else if c <? 0x80 then Some [c]
  else if c <? 0x800 then Some [0xC0 + c / 64; 0x80 + c mod 64]
  else if c <? 0x10000 then
    if is_surrogate c then None
    else Some [0xE0 + c / 4096; 0x80 + (c / 64) mod 64; 0x80 + c mod 64]
  else if c <? 0x110000 then
    Some [0xF0 + c / 262144; 0x80 + (c / 4096) mod 64;
          0x80 + (c / 64) mod 64; 0x80 + c mod 64]
  else None.

Fixpoint utf8_encode (s : str) : option bytes :=
  match s with
  | [] => Some []
  | c :: s' =>
      match utf8_encode_cp c, utf8_encode s' with
      | Some b, Some b' => Some (b ++ b')
      | _, _ => None
      end
  end.

(** A continuation octet, [10xxxxxx]. *)
Definition is_cont (b : Z) : bool := (0x80 <=? b) && (b <? 0xC0).

(** The strict decoder: overlong forms, surrogates, code points above
    [0x10FFFF], stray continuation octets and truncated sequences are all
    refused ([None] is [UnicodeDecodeError]). *)
Fixpoint utf8_decode (b : bytes) : option str :=
  match b with
  | [] => Some []
  | b0 :: r0 =>
      if (0 <=? b0) && (b0 <? 0x80) then cons b0 <$> utf8_decode r0
      else if (0xC2 <=? b0) && (b0 <? 0xE0) then
        match r0 with
        | b1 :: r1 =>
            if is_cont b1
            then cons ((b0 - 0xC0) * 64 + (b1 - 0x80)) <$> utf8_decode r1
            else None
        | _ => None
        end
      else if (0xE0 <=? b0) && (b0 <? 0xF0) then
        match r0 with
        | b1 :: b2 :: r2 =>
            let c := (b0 - 0xE0) * 4096 + (b1 - 0x80) * 64 + (b2 - 0x80) in
            if is_cont b1 && is_cont b2 && (0x800 <=? c) && negb (is_surrogate c)
            then cons c <$> utf8_decode r2
            else None
        | _ => None
        end
      else if (0xF0 <=? b0) && (b0 <? 0xF5) then
        match r0 with
        | b1 :: b2 :: b3 :: r3 =>
            let c := (b0 - 0xF0) * 262144 + (b1 - 0x80) * 4096
                     + (b2 - 0x80) * 64 + (b3 - 0x80) in
            if is_cont b1 && is_cont b2 && is_cont b3
               && (0x10000 <=? c) && (c <? 0x110000)
            then cons c <$> utf8_decode r3
            else None
        | _ => None
        end
      else None
  end.

(** ** Exceptions and outcomes *)

(** The exception classes the program can meet.  All of them derive from
    [Exception]. *)
Inductive exn_class :=
| Exception
| ValueError
| UnicodeEncodeError
| UnicodeDecodeError
| JSONDecodeError
| TypeError
| KeyError
| IndexError
| OverflowError
| OSError
| RequestException
| InvalidToken.

(** [issubclass(c, ValueError)]. *)
Definition is_ValueError (c : exn_class) : bool :=
  match c with
  | ValueError | UnicodeEncodeError | UnicodeDecodeError | JSONDecodeError => true
  | _ => false
  end.

(** An exception: its class and [str(e)]. *)
Record exn := mk_exn { exn_cls : exn_class; exn_msg : str }.

Inductive outcome (A : Type) :=
| Returns (a : A)
| Raises (e : exn).
Arguments Returns {A} a.
Arguments Raises {A} e.

Definition raised {A} (r : outcome A) : Prop := exists e, r = Raises e.
Definition raised_cls {A} (c : exn_class) (r : outcome A) : Prop :=
  exists m, r = Raises (mk_exn c m).

(** ** Programs: state passing with exceptions

    A program over a state [S] returns or raises, and leaves a state either
    way: what was done before a [raise] stays done. *)
Definition prog (S A : Type) : Type := S -> outcome A * S.

Definition ret {S A} (a : A) : prog S A := fun s => (Returns a, s).
Definition raise {S A} (e : exn) : prog S A := fun s => (Raises e, s).

Definition bind {S A B} (m : prog S A) (k : A -> prog S B) : prog S B :=
  fun s =>
    match m s with
    | (Returns a, s') => k a s'
    | (Raises e, s') => (Raises e, s')
    end.

Declare Scope prog_scope.
Delimit Scope prog_scope with prog.
Notation "'let!' x ':=' m 'in' k" := (bind m (fun x => k))
  (at level 10, x name, m at level 100, k at level 200) : prog_scope.
Notation "m ';!' k" := (bind m (fun _ => k))
  (at level 100, k at level 200, right associativity) : prog_scope.

(** One [except] clause: the classes it names and its handler. *)
Definition clause (S A : Type) : Type := (exn_class -> bool) * (exn -> prog S A).

(** The first clause that names the class of [e] handles it; with none,
    [e] goes on to the caller. *)
Fixpoint dispatch {S A} (clauses : list (clause S A)) (e : exn) : prog S A :=
  match clauses with
  | [] => raise e
  | (catches, handler) :: rest =>
      if catches (exn_cls e) then handler e else dispatch rest e
  end.

(** [try: body / except ...: ... / except ...: ...].  What a handler
    raises is not offered to the clauses after it. *)
Definition try_except {S A} (body : prog S A) (clauses : list (clause S A))
    : prog S A :=
  fun s =>
    match body s with
    | (Raises e, s') => dispatch clauses e s'
    | r => r
    end.

(** [try: body / finally: fin]: [fin] runs whatever the body did; the
    outcome is the body's, unless [fin] itself raises. *)
Definition try_finally {S A} (body : prog S A) (fin : prog S unit) : prog S A :=
  fun s =>
    match body s with
    | (r, s') =>
        match fin s' with
        | (Returns _, s'') => (r, s'')
        | (Raises e, s'') => (Raises e, s'')
        end
    end.

(** [except Exception] catches every class of [exn_class]. *)
Definition any_Exception (c : exn_class) : bool := true.

(** An optional result of a builtin, raising [e] where it has none. *)
Definition or_raise {S A} (o : option A) (e : exn) : prog S A :=
  match o with
  | Some a => ret a
  | None => raise e
  end.

(** ** The platform *)

(** What the program asks of [cryptography.fernet].  Key generation and
    encryption draw on the system's randomness and clock, which the
    embedding passes in as a number. *)
Class FernetSuite := {
  (** [Fernet.generate_key()] *)
  generate_key : N -> bytes;
  (** whether [Fernet(key)] accepts the key *)
  key_ok : bytes -> bool;
  (** [Fernet(key).encrypt(data)] *)
  encrypt : bytes -> N -> bytes -> bytes;
  (** [Fernet(key).decrypt(token)]; [None] is [InvalidToken] *)
  decrypt : bytes -> bytes -> option bytes;
}.

(** The cipher gives back what it was given. *)
Class FernetLaws (F : FernetSuite) : Prop := {
  generate_key_ok : forall r, key_ok (generate_key r) = true;
  decrypt_encrypt : forall k r m,
    key_ok k = true -> is_bytes m -> decrypt k (encrypt k r m) = Some m;
}.

(** [t'] is [t] with the octet at one position replaced by another one. *)
Definition one_byte_changed (t t' : bytes) : Prop :=
  exists l1 b b' l2,
    t = l1 ++ b :: l2 /\ t' = l1 ++ b' :: l2 /\ b <> b' /\ is_byte b'.

(** What the signature of a token gives: a token of which one octet was
    changed decrypts, when it decrypts at all, to what the token held.
    The signature is taken to be one that cannot be forged. *)
Class Integrity (F : FernetSuite) : Prop := {
  decrypt_changed : forall k r m t' m',
    key_ok k = true -> is_bytes m ->
    one_byte_changed (encrypt k r m) t' -> decrypt k t' = Some m' -> m' = m;
}.

(** ** The token format of Fernet

    A Fernet token is the URL-safe base64 text of the version octet
    [0x80], a timestamp, the IV, the AES-128-CBC ciphertext and the
    HMAC-SHA256 of all that, in a row; [Fernet.decrypt] reads it back with
    [base64.urlsafe_b64decode], which decodes leniently.  The layout and
    the two base64 functions are written out; AES and HMAC stay an
    interface. *)

(** The character of a 6-bit value in the URL-safe alphabet. *)
Definition b64_char (v : Z) : Z :=
  if v <? 26 then 65 + v
  else if v <? 52 then 97 + (v - 26)
  else if v <? 62 then 48 + (v - 52)
  else if v =? 62 then 45
  else 95.

(** [base64.urlsafe_b64encode] *)
Fixpoint urlsafe_b64encode (b : bytes) : bytes :=
  match b with
  | [] => []
  | [x] => [b64_char (x / 4); b64_char (x mod 4 * 16); 61; 61]
  | [x; y] =>
      [b64_char (x / 4); b64_char (x mod 4 * 16 + y / 16);
       b64_char (y mod 16 * 4); 61]
  | x :: y :: z :: rest =>
      b64_char (x / 4) :: b64_char (x mod 4 * 16 + y / 16)
      :: b64_char (y mod 16 * 4 + z / 64) :: b64_char (z mod 64)
      :: urlsafe_b64encode rest
  end.

(** The 6-bit value of a character, as [urlsafe_b64decode] reads it: it
    turns [-] and [_] into [+] and [/] and then decodes the standard
    alphabet, so both spellings count. *)
Definition b64_value (c : Z) : option Z :=
  if (65 <=? c) && (c <=? 90) then Some (c - 65)
  else if (97 <=? c) && (c <=? 122) then Some (c - 97 + 26)
  else if (48 <=? c) && (c <=? 57) then Some (c - 48 + 52)
  else if (c =? 43) || (c =? 45) then Some 62
  else if (c =? 47) || (c =? 95) then Some 63
  else None.

(** The loop of [binascii.a2b_base64] without [strict_mode]: characters
    outside the alphabet are skipped, the bits a last character carries
    beyond the last whole octet are dropped unread, and enough [=] after
    two or three characters of a group ends the data.  [None] is
    [binascii.Error]. *)
Fixpoint a2b_base64 (input : bytes) (quad_pos leftchar pads : Z) (out : bytes)
    : option bytes :=
  match input with
  | [] => if quad_pos =? 0 then Some out else None
  | c :: rest =>
      if c =? 61 then
        if (2 <=? quad_pos) && (4 <=? quad_pos + (pads + 1)) then Some out
        else a2b_base64 rest quad_pos leftchar
               (if 2 <=? quad_pos then pads + 1 else pads) out
      else
        match b64_value c with
        | None => a2b_base64 rest quad_pos leftchar pads out
        | Some v =>
            if quad_pos =? 0 then a2b_base64 rest 1 v 0 out
            else if quad_pos =? 1 then
              a2b_base64 rest 2 (v mod 16) 0 (out ++ [leftchar * 4 + v / 16])
            else if quad_pos =? 2 then
              a2b_base64 rest 3 (v mod 4) 0 (out ++ [leftchar * 16 + v / 4])
            else a2b_base64 rest 0 0 0 (out ++ [leftchar * 64 + v])
        end
  end.

(** [base64.urlsafe_b64decode] *)
Definition urlsafe_b64decode (s : bytes) : option bytes := a2b_base64 s 0 0 0 [].

(** PKCS7 padding to blocks of 16 octets, and its removal ([None] where
    the padding is not well formed). *)
Definition pkcs7_pad (m : bytes) : bytes :=
  let n := 16 - Z.of_nat (length m) mod 16 in
  m ++ repeat n (Z.to_nat n).

Definition pkcs7_unpad (p : bytes) : option bytes :=
  let n := List.last p 0 in
  let keep := (length p - Z.to_nat n)%nat in
  if (1 <=? n) && (n <=? 16) && (n <=? Z.of_nat (length p))
     && bool_decide (drop keep p = repeat n (Z.to_nat n))
  then Some (take keep p)
  else None.

(** The 8 octets of a timestamp, most significant first. *)
Definition timestamp_bytes (t : Z) : bytes :=
  (fun i => (t / 256 ^ Z.of_nat i) mod 256) <$> [7; 6; 5; 4; 3; 2; 1; 0]%nat.

(** What Fernet is built from. *)
Class Primitives := {
  (** AES-128 in CBC mode: key, IV, whole blocks *)
  cbc_encrypt : bytes -> bytes -> bytes -> bytes;
  cbc_decrypt : bytes -> bytes -> bytes -> bytes;
  (** HMAC-SHA256: key, message *)
  hmac : bytes -> bytes -> bytes;
  (** [os.urandom(n)] and [int(time.time())], from the state of the system *)
  urandom : N -> nat -> bytes;
  now : N -> Z;
}.

(** What the construction asks of its primitives: AES in CBC mode gives
    back whole blocks it was given, octet for octet as many as it was
    given; a signature has 32 octets; [os.urandom(n)] has [n]. *)
Class PrimitiveLaws (Pr : Primitives) : Prop := {
  cbc_decrypt_encrypt : forall k iv p,
    is_bytes p -> (length p mod 16 = 0)%nat ->
    cbc_decrypt k iv (cbc_encrypt k iv p) = p;
  cbc_encrypt_length : forall k iv p, length (cbc_encrypt k iv p) = length p;
  cbc_encrypt_bytes : forall k iv p, is_bytes (cbc_encrypt k iv p);
  hmac_length : forall k m, length (hmac k m) = 32%nat;
  hmac_bytes : forall k m, is_bytes (hmac k m);
  urandom_length : forall r n, length (urandom r n) = n;
  urandom_bytes : forall r n, is_bytes (urandom r n);
}.

Section Token.
Context {Pr : Primitives}.

(** The two halves of the decoded key: the signing key and the
    encryption key. *)
Definition signing_key (raw : bytes) : bytes := take 16 raw.
Definition encryption_key (raw : bytes) : bytes := drop 16 raw.

Definition token_generate_key (r : N) : bytes := urlsafe_b64encode (urandom r 32).

(** [Fernet(key)] wants 32 octets under the base64. *)
Definition token_key_ok (k : bytes) : bool :=
  match urlsafe_b64decode k with
  | Some raw => bool_decide (length raw = 32%nat)
  | None => false
  end.

(** [Fernet.encrypt] *)
Definition token_encrypt (k : bytes) (r : N) (m : bytes) : bytes :=
  let raw := default [] (urlsafe_b64decode k) in
  let iv := urandom r 16 in
  let ciphertext := cbc_encrypt (encryption_key raw) iv (pkcs7_pad m) in
  let basic := 0x80 :: timestamp_bytes (now r) ++ iv ++ ciphertext in
  urlsafe_b64encode (basic ++ hmac (signing_key raw) basic).

(** [Fernet.decrypt], with no time to live: decode, check the version
    octet and the length, verify the signature over all but the last 32
    octets, decrypt whole blocks, remove the padding. *)
Definition token_decrypt (k : bytes) (t : bytes) : option bytes :=
  let raw := default [] (urlsafe_b64decode k) in
  match urlsafe_b64decode t with
  | None => None
  | Some d =>
      if bool_decide (head d = Some 0x80) && (9 <=? length d)%nat then
        let signed := take (length d - 32) d in
        if bool_decide (hmac (signing_key raw) signed = drop (length d - 32) d) then
          let iv := take 16 (drop 9 d) in
          let ciphertext := drop 25 signed in
          if (length ciphertext mod 16 =? 0)%nat
          then pkcs7_unpad (cbc_decrypt (encryption_key raw) iv ciphertext)
          else None
        else None
      else None
  end.

(** Fernet over its primitives. *)
Definition fernet_over : FernetSuite := {|
  generate_key := token_generate_key;
  key_ok := token_key_ok;
  encrypt := token_encrypt;
  decrypt := token_decrypt;
|}.

End Token.

(** A builtin's failure, for which CPython words the message. *)
Inductive fault :=
| BadFloatLiteral (s : str)
| BadFloatArgument
| IntTooLarge
| NotSubscriptable
| BadIndexType
| MissingKey (k : str)
| IndexOutOfRange
| CannotEncode (s : str)
| CannotDecode (b : bytes)
| FileNotFound (p : string)
| PermissionDenied (p : string)
| BadFernetKey
| BadToken
| BadJSON
| Unreachable.

(** What the program asks of the interpreter: the [float] type with its
    constructor, its formats and its test against zero, and the wording of
    the builtin exceptions. *)
Class Platform := {
  float : Type;
  (** [float(s)] for a [str]; [None] is [ValueError] *)
  float_of_str : str -> option float;
  (** [float(n)] for an [int]; [None] is [OverflowError] *)
  float_of_int : Z -> option float;
  (** [str(x)], which is also the f-string field [{x}] *)
  float_str : float -> str;
  (** the f-string field [{x:.2f}] *)
  float_format_2f : float -> str;
  (** [x == 0] *)
  float_is_zero : float -> bool;
  (** [str(e)] of the exception a builtin raises for a fault *)
  describe : fault -> str;
}.

Section Program.
Context {P : Platform} {F : FernetSuite}.

(** The exception a builtin raises for a fault. *)
Definition builtin_error (c : exn_class) (f : fault) : exn := mk_exn c (describe f).

(** ** Python objects, as [response.json()] returns them *)

Inductive pyobj :=
| PNone
| PBool (b : bool)
| PInt (n : Z)
| PFloat (x : float)
| PStr (s : str)
| PList (l : list pyobj)
| PDict (d : list (str * pyobj)).

Inductive index :=
| Key (k : str)
| Idx (n : Z).

Fixpoint dict_get (d : list (str * pyobj)) (k : str) : option pyobj :=
  match d with
  | [] => None
  | (k', v) :: d' => if bool_decide (k' = k) then Some v else dict_get d' k
  end.

(** [seq[n]], a negative [n] counting from the end. *)
Definition seq_get {A} (l : list A) (n : Z) : option A :=
  let i := if n <? 0 then n + Z.of_nat (length l) else n in
  if i <? 0 then None else l !! Z.to_nat i.

(** [o[i]].  The keys of a decoded JSON object are strings, so an integer
    is never among them. *)
Definition subscript {S} (o : pyobj) (i : index) : prog S pyobj :=
  match o, i with
  | PDict d, Key k => or_raise (dict_get d k) (builtin_error KeyError (MissingKey k))
  | PDict d, Idx n => raise (builtin_error KeyError (MissingKey (int_str n)))
  | PList l, Idx n => or_raise (seq_get l n) (builtin_error IndexError IndexOutOfRange)
  | PList l, Key _ => raise (builtin_error TypeError BadIndexType)
  | PStr s, Idx n =>
      or_raise ((fun c => PStr [c]) <$> seq_get s n)
               (builtin_error IndexError IndexOutOfRange)
  | PStr s, Key _ => raise (builtin_error TypeError BadIndexType)
  | _, _ => raise (builtin_error TypeError NotSubscriptable)
  end.

(** [float(o)]. *)
Definition float_ {S} (o : pyobj) : prog S float :=
  match o with
  | PStr s => or_raise (float_of_str s) (builtin_error ValueError (BadFloatLiteral s))
  | PInt n => or_raise (float_of_int n) (builtin_error OverflowError IntTooLarge)
  | PBool b => or_raise (float_of_int (if b then 1 else 0))
                        (builtin_error OverflowError IntTooLarge)
  | PFloat x => ret x
  | _ => raise (builtin_error TypeError BadFloatArgument)
  end.

(** [s.encode()] and [b.decode()]. *)
Definition str_encode {S} (s : str) : prog S bytes :=
  or_raise (utf8_encode s) (builtin_error UnicodeEncodeError (CannotEncode s)).

Definition bytes_decode {S} (b : bytes) : prog S str :=
  or_raise (utf8_decode b) (builtin_error UnicodeDecodeError (CannotDecode b)).

(** ** The world *)

(** A file of the home directory: its content and whether this user may
    read and write it. *)
Record file := mk_file { data : bytes; readable : bool; writable : bool }.

Record request := mk_request {
  url : str;
  headers : list (str * str);
  payload : pyobj;
}.

(** A response: its status and what [response.json()] gives ([None] where
    the body is not JSON). *)
Record response := mk_response {
  status_code : Z;
  json : option pyobj;
}.

Record world := mk_world {
  (** the files of the home directory, by name *)
  disk : gmap string file;
  (** whether entries can be created in and removed from that directory *)
  home_writable : bool;
  (** the state of the system's randomness and clock *)
  entropy : N;
  (** what the network will answer to the coming requests, in order *)
  wire : list (outcome response);
  (** the requests sent so far, oldest first *)
  outbox : list request;
  (** the [messagebox.showerror] calls so far, as (title, message) *)
  dialogs : list (str * str);
}.

Definition with_disk (d : gmap string file) (w : world) : world :=
  mk_world d (home_writable w) (entropy w) (wire w) (outbox w) (dialogs w).

(** [path.exists()] *)
Definition path_exists (p : string) : prog world bool :=
  fun w => (Returns (bool_decide (is_Some (disk w !! p))), w).

(** [with open(p, 'rb') as f: f.read()] *)
Definition read_file (p : string) : prog world bytes :=
  fun w =>
    match disk w !! p with
    | Some f =>
        if readable f then (Returns (data f), w)
        else (Raises (builtin_error OSError (PermissionDenied p)), w)
    | None => (Raises (builtin_error OSError (FileNotFound p)), w)
    end.

(** [with open(p, 'wb') as f: f.write(b)]: the file is created when it is
    missing, and replaced in full when it is there.  A file that cannot be
    opened for writing is left as it is.  The device is taken to hold what
    is written to a file that was opened: a write or a close that fails
    after [open] has emptied the file (no space left, a quota, a size
    limit) is not modelled. *)
Definition write_file (p : string) (b : bytes) : prog world unit :=
  fun w =>
    match disk w !! p with
    | Some f =>
        if writable f
        then (Returns tt, with_disk (<[p := mk_file b (readable f) true]> (disk w)) w)
        else (Raises (builtin_error OSError (PermissionDenied p)), w)
    | None =>
        if home_writable w
        then (Returns tt, with_disk (<[p := mk_file b true true]> (disk w)) w)
        else (Raises (builtin_error OSError (PermissionDenied p)), w)
    end.

(** [path.unlink()] *)
Definition unlink (p : string) : prog world unit :=
  fun w =>
    match disk w !! p with
    | Some _ =>
        if home_writable w
        then (Returns tt, with_disk (delete p (disk w)) w)
        else (Raises (builtin_error OSError (PermissionDenied p)), w)
    | None => (Raises (builtin_error OSError (FileNotFound p)), w)
    end.

(** [messagebox.showerror(title, message)] *)
Definition showerror (title message : str) : prog world unit :=
  fun w =>
    (Returns tt,
     mk_world (disk w) (home_writable w) (entropy w) (wire w) (outbox w)
              (dialogs w ++ [(title, message)])).

(** [requests.post(url, headers=headers, json=data)]: the request goes
    out, and the network answers with a response or with a transport
    error. *)
Definition requests_post (u : str) (h : list (str * str)) (d : pyobj)
    : prog world response :=
  fun w =>
    let out := outbox w ++ [mk_request u h d] in
    match wire w with
    | r :: rest =>
        (r, mk_world (disk w) (home_writable w) (entropy w) rest out (dialogs w))
    | [] =>
        (Raises (builtin_error RequestException Unreachable),
         mk_world (disk w) (home_writable w) (entropy w) [] out (dialogs w))
    end.

(** [response.json()] *)
Definition response_json {S} (r : response) : prog S pyobj :=
  or_raise (json r) (builtin_error JSONDecodeError BadJSON).

(** ** Methods *)

(** A method of a class [Self]: a program over the receiver and the
    world. *)
Definition method (Self A : Type) : Type := prog (Self * world) A.

(** Something done to the world from inside a method. *)
Definition io {Self A} (m : prog world A) : method Self A :=
  fun s =>
    match m (snd s) with
    | (r, w') => (r, (fst s, w'))
    end.

(** Reading an attribute of [self]. *)
Definition attr {Self A} (get : Self -> A) : method Self A :=
  fun s => (Returns (get (fst s)), s).

(** Assigning to [self]. *)
Definition update {Self} (f : Self -> Self) : method Self unit :=
  fun s => (Returns tt, (f (fst s), snd s)).

(** Calling a method of an object held in an attribute of [self]. *)
Definition on {Self O A} (get : Self -> O) (put : O -> Self -> Self)
    (m : method O A) : method Self A :=
  fun s =>
    match m (get (fst s), snd s) with
    | (r, (o', w')) => (r, (put o' (fst s), w'))
    end.

Local Open Scope prog_scope.

(** ** [class APIKeyManager] *)

(** A [Fernet] object holds the key it was made with. *)
Record Fernet := mk_Fernet { secret : bytes }.

(** [Fernet(key)]: a key of the wrong shape is a [ValueError]. *)
Definition Fernet_init {S} (key : bytes) : prog S Fernet :=
  if key_ok key then ret (mk_Fernet key)
  else raise (builtin_error ValueError BadFernetKey).

(** [Fernet.generate_key()] *)
Definition Fernet_generate_key : prog world bytes :=
  fun w =>
    (Returns (generate_key (entropy w)),
     mk_world (disk w) (home_writable w) (N.succ (entropy w)) (wire w)
              (outbox w) (dialogs w)).

(** [f.encrypt(data)] *)
Definition Fernet_encrypt (f : Fernet) (plain : bytes) : prog world bytes :=
  fun w =>
    (Returns (encrypt (secret f) (entropy w) plain),
     mk_world (disk w) (home_writable w) (N.succ (entropy w)) (wire w)
              (outbox w) (dialogs w)).

(** [f.decrypt(token)] *)
Definition Fernet_decrypt {S} (f : Fernet) (token : bytes) : prog S bytes :=
  or_raise (decrypt (secret f) token) (builtin_error InvalidToken BadToken).

Record APIKeyManager := mk_APIKeyManager {
  key_file : string;
  key_encryption_key : bytes;
  fernet : Fernet;
}.

(** [Path.home() / '.calculator_api_key'], the credential file. *)
Definition credential_path : string := "~/.calculator_api_key".

(** [Path.home() / '.calculator_key'], the key file. *)
Definition key_path : string := "~/.calculator_key".

(** [APIKeyManager._get_or_create_encryption_key]; it reads no attribute
    of [self]. *)
Definition _get_or_create_encryption_key : prog world bytes :=
  let! present := path_exists key_path in
  if negb present then
    let! key := Fernet_generate_key in
    write_file key_path key ;!
    ret key
  else
    read_file key_path.

(** [APIKeyManager.__init__] *)
Definition APIKeyManager_init : prog world APIKeyManager :=
  let! key := _get_or_create_encryption_key in
  let! f := Fernet_init key in
  ret (mk_APIKeyManager credential_path key f).

(** [APIKeyManager.save_api_key] *)
Definition save_api_key (api_key : str) : method APIKeyManager unit :=
  let! plain := str_encode api_key in
  let! f := attr fernet in
  let! encrypted_key := io (Fernet_encrypt f plain) in
  let! p := attr key_file in
  io (write_file p encrypted_key).

(** [APIKeyManager.load_api_key] *)
Definition load_api_key : method APIKeyManager (option str) :=
  try_except
    (let! p := attr key_file in
     let! present := io (path_exists p) in
     if present then
       let! encrypted_key := io (read_file p) in
       let! f := attr fernet in
       let! plain := Fernet_decrypt f encrypted_key in
       let! s := bytes_decode plain in
       ret (Some s)
     else ret None)
    [(any_Exception, fun _ => ret None)].

(** [APIKeyManager.delete_api_key] *)
Definition delete_api_key : method APIKeyManager unit :=
  let! p := attr key_file in
  let! present := io (path_exists p) in
  if present then io (unlink p) else ret tt.

(** ** [class CalculatorAPI] *)

Record CalculatorAPI := mk_CalculatorAPI {
  api_key : str;
  base_url : str;
}.

(** [CalculatorAPI.__init__] *)
Definition CalculatorAPI_init (key : str) : CalculatorAPI :=
  mk_CalculatorAPI key
    (lit "https://generativelanguage.googleapis.com/v1beta/models/gemini-pro:generateContent").

(** The f-string of the instruction. *)
Definition instruction (num1 num2 : float) (operation : str) : str :=
  lit "Calculate " ++ float_str num1 ++ lit " " ++ operation ++ lit " "
  ++ float_str num2 ++ lit " and return only the numerical result".

(** The [data] dictionary around an instruction. *)
Definition request_data (text : str) : pyobj :=
  PDict [(lit "contents",
          PList [PDict [(lit "parts", PList [PDict [(lit "text", PStr text)]])]])].

Definition request_headers (key : str) : list (str * str) :=
  [(lit "Content-Type", lit "application/json"); (lit "x-goog-api-key", key)].

(** [result['candidates'][0]['content']['parts'][0]['text']] *)
Definition first_text {S} (result : pyobj) : prog S pyobj :=
  let! candidates := subscript result (Key (lit "candidates")) in
  let! candidate := subscript candidates (Idx 0) in
  let! content := subscript candidate (Key (lit "content")) in
  let! parts := subscript content (Key (lit "parts")) in
  let! part := subscript parts (Idx 0) in
  subscript part (Key (lit "text")).

(** [CalculatorAPI.call_api] *)
Definition call_api (num1 num2 : float) (operation : str)
    : method CalculatorAPI float :=
  try_except
    (let! key := attr api_key in
     let headers := request_headers key in
     let data := request_data (instruction num1 num2 operation) in
     let! u := attr base_url in
     let! response := io (requests_post u headers data) in
     if status_code response =? 200 then
       let! result := response_json response in
       let! text := first_text result in
       float_ text
     else
       raise (mk_exn Exception (lit "API Error: " ++ int_str (status_code response))))
    [(any_Exception,
      fun e => raise (mk_exn Exception (lit "API call failed: " ++ exn_msg e)))].

(** ** [class CalculatorApp] *)

(** The attributes of the application that [calculate] touches: the two
    entry fields with what the user typed, the two labels and the history
    box with what they show, and the client. *)
Record CalculatorApp := mk_CalculatorApp {
  key_manager : APIKeyManager;
  api_client : CalculatorAPI;
  num1_entry : str;
  num2_entry : str;
  result_label : str;
  loading_label : str;
  history_text : str;
}.

Definition set_api_client (c : CalculatorAPI) (a : CalculatorApp) : CalculatorApp :=
  mk_CalculatorApp (key_manager a) c (num1_entry a) (num2_entry a)
                   (result_label a) (loading_label a) (history_text a).

(** [self.result_label.config(text=t)] *)
Definition set_result_label (t : str) (a : CalculatorApp) : CalculatorApp :=
  mk_CalculatorApp (key_manager a) (api_client a) (num1_entry a) (num2_entry a)
                   t (loading_label a) (history_text a).

(** [self.loading_label.config(text=t)] *)
Definition set_loading_label (t : str) (a : CalculatorApp) : CalculatorApp :=
  mk_CalculatorApp (key_manager a) (api_client a) (num1_entry a) (num2_entry a)
                   (result_label a) t (history_text a).

(** [self.history_text.insert(tk.END, t)] *)
Definition history_insert_end (t : str) (a : CalculatorApp) : CalculatorApp :=
  mk_CalculatorApp (key_manager a) (api_client a) (num1_entry a) (num2_entry a)
                   (result_label a) (loading_label a) (history_text a ++ t).

(** The buttons of the main window: their captions and the operation
    each one passes to [calculate]. *)
Definition operations : list (str * str) :=
  [(lit "Add", lit "+"); (lit "Subtract", lit "-");
   (lit "Multiply", lit "*"); (lit "Divide", lit "/")].

Inductive operator := add | subtract | multiply | divide.

Definition caption (o : operator) : str :=
  match o with
  | add => lit "Add"
  | subtract => lit "Subtract"
  | multiply => lit "Multiply"
  | divide => lit "Divide"
  end.

(** The symbol the button of an operator passes on, looked up in
    [operations]. *)
Definition symbol (o : operator) : str :=
  default [] (snd <$> List.find (fun b => bool_decide (fst b = caption o)) operations).

(** The line [calculate] adds to the history. *)
Definition history_line (num1 num2 : float) (operation : str) (result : float) : str :=
  float_str num1 ++ lit " " ++ operation ++ lit " " ++ float_str num2
  ++ lit " = " ++ float_format_2f result ++ [10].

(** [CalculatorApp.calculate].  [self.root.update()] and
    [self.history_text.see(tk.END)] redraw and scroll; they change nothing
    that is kept here. *)
Definition calculate (operation : str) : method CalculatorApp unit :=
  try_finally
    (try_except
       (let! t1 := attr num1_entry in
        let! num1 := float_ (PStr t1) in
        let! t2 := attr num2_entry in
        let! num2 := float_ (PStr t2) in
        if bool_decide (operation = lit "/") && float_is_zero num2 then
          io (showerror (lit "Error") (lit "Cannot divide by zero"))
        else
          update (set_loading_label (lit "Calculating...")) ;!
          let! result := on api_client set_api_client
                            (call_api num1 num2 operation) in
          update (set_result_label (float_format_2f result)) ;!
          update (history_insert_end (history_line num1 num2 operation result)))
       [(is_ValueError,
         fun _ => io (showerror (lit "Error") (lit "Please enter valid numbers")));
        (any_Exception,
         fun e => io (showerror (lit "Error") (exn_msg e)))])
    (update (set_loading_label [])).

(** ** Shorthands for the statements *)

(** The file at [p] cannot be written: it is there and read-only, or it is
    missing from a directory that takes no new entry. *)
Definition unwritable (p : string) (w : world) : Prop :=
  match disk w !! p with
  | Some f => writable f = false
  | None => home_writable w = false
  end.

(** The request [call_api] sends. *)
Definition sent (num1 num2 : float) (operation : str) (c : CalculatorAPI) : request :=
  mk_request (base_url c) (request_headers (api_key c))
             (request_data (instruction num1 num2 operation)).

(** What is left of the world after [call_api]: one request more in the
    outbox, one answer less on the wire. *)
Definition after_call (num1 num2 : float) (operation : str) (c : CalculatorAPI)
    (w : world) : world :=
  mk_world (disk w) (home_writable w) (entropy w) (tail (wire w))
           (outbox w ++ [sent num1 num2 operation c]) (dialogs w).

End Program.

(** ** [str.strip()] *)

(** [c.isspace()] for one code point: the ASCII white space and the
    separators of Unicode. *)
Definition is_space (c : Z) : bool :=
  ((0x09 <=? c) && (c <=? 0x0D)) || ((0x1C <=? c) && (c <=? 0x20))
  || (c =? 0x85) || (c =? 0xA0) || (c =? 0x1680)
  || ((0x2000 <=? c) && (c <=? 0x200A))
  || (c =? 0x2028) || (c =? 0x2029) || (c =? 0x202F) || (c =? 0x205F)
  || (c =? 0x3000).

(** [s.lstrip()] *)
Fixpoint lstrip (s : str) : str :=
  match s with
  | [] => []
  | c :: s' => if is_space c then lstrip s' else s
  end.

(** [s.rstrip()] *)
Definition rstrip (s : str) : str := rev (lstrip (rev s)).

(** [s.strip()] *)
Definition strip (s : str) : str := rstrip (lstrip s).

(** The truth value of an optional string: [None] and [""] are false. *)
Definition truthy (o : option str) : bool :=
  match o with
  | Some (_ :: _) => true
  | _ => false
  end.

Section Windows.
Context {P : Platform} {F : FernetSuite}.
Local Open Scope prog_scope.

(** Running a method on an object that is no attribute of [self]: the
    result comes with the object as the method left it. *)
Definition on_object {Self O A} (o : O) (m : method O A) : method Self (A * O) :=
  fun s =>
    match m (o, snd s) with
    | (Returns a, (o', w')) => (Returns (a, o'), (fst s, w'))
    | (Raises e, (o', w')) => (Raises e, (fst s, w'))
    end.

(** ** [class APIKeyDialog] *)

(** The attributes of the dialog its handlers touch: the key it hands
    back, its own key manager, the text of the entry, the status line with
    its colour ([None] is the colour of the theme), whether
    [dialog.after(1500, self.dialog.destroy)] is pending, and whether the
    window is gone. *)
Record APIKeyDialog := mk_APIKeyDialog {
  dialog_api_key : option str;
  dialog_key_manager : APIKeyManager;
  api_key_var : str;
  status_text : str;
  status_foreground : option str;
  closing : bool;
  destroyed : bool;
}.

Definition set_dialog_api_key (k : option str) (d : APIKeyDialog) : APIKeyDialog :=
  mk_APIKeyDialog k (dialog_key_manager d) (api_key_var d) (status_text d)
                  (status_foreground d) (closing d) (destroyed d).

Definition set_dialog_key_manager (m : APIKeyManager) (d : APIKeyDialog)
    : APIKeyDialog :=
  mk_APIKeyDialog (dialog_api_key d) m (api_key_var d) (status_text d)
                  (status_foreground d) (closing d) (destroyed d).

(** The user edits the entry. *)
Definition set_api_key_var (v : str) (d : APIKeyDialog) : APIKeyDialog :=
  mk_APIKeyDialog (dialog_api_key d) (dialog_key_manager d) v (status_text d)
                  (status_foreground d) (closing d) (destroyed d).

(** [self.status_label.config(text=t, foreground=c)] *)
Definition status_config (t c : str) (d : APIKeyDialog) : APIKeyDialog :=
  mk_APIKeyDialog (dialog_api_key d) (dialog_key_manager d) (api_key_var d) t
                  (Some c) (closing d) (destroyed d).

(** [self.dialog.after(1500, self.dialog.destroy)] *)
Definition after_destroy (d : APIKeyDialog) : APIKeyDialog :=
  mk_APIKeyDialog (dialog_api_key d) (dialog_key_manager d) (api_key_var d)
                  (status_text d) (status_foreground d) true (destroyed d).

(** [self.dialog.destroy()] *)
Definition destroy (d : APIKeyDialog) : APIKeyDialog :=
  mk_APIKeyDialog (dialog_api_key d) (dialog_key_manager d) (api_key_var d)
                  (status_text d) (status_foreground d) (closing d) true.

(** [APIKeyDialog.__init__]: the window, no key yet, a key manager of its
    own, and the widgets of [create_widgets] with an empty entry and an
    empty status line. *)
Definition APIKeyDialog_init : prog world APIKeyDialog :=
  let! m := APIKeyManager_init in
  ret (mk_APIKeyDialog None m [] [] None false false).

(** The request of [test_api_key]. *)
Definition probe_request (key : str) : request :=
  mk_request
    (lit "https://generativelanguage.googleapis.com/v1beta/models/gemini-pro:generateContent")
    (request_headers key)
    (request_data (lit "Return only the number 1")).

(** [APIKeyDialog.test_api_key] *)
Definition test_api_key (key : str) : method APIKeyDialog bool :=
  try_except
    (let u := lit "https://generativelanguage.googleapis.com/v1beta/models/gemini-pro:generateContent" in
     let headers := request_headers key in
     let data := request_data (lit "Return only the number 1") in
     let! response := io (requests_post u headers data) in
     ret (status_code response =? 200))
    [(any_Exception, fun _ => ret false)].

(** [APIKeyDialog.test_and_save_key].  [self.dialog.update()] redraws. *)
Definition test_and_save_key : method APIKeyDialog unit :=
  let! v := attr api_key_var in
  let key := strip v in
  if negb (truthy (Some key)) then
    update (status_config (lit "Please enter an API key") (lit "red"))
  else
    update (status_config (lit "Testing API key...") (lit "black")) ;!
    let! valid := test_api_key key in
    if valid then
      on dialog_key_manager set_dialog_key_manager (save_api_key key) ;!
      update (set_dialog_api_key (Some key)) ;!
      update (status_config (lit "API key validated and saved successfully!")
                            (lit "green")) ;!
      update after_destroy
    else
      update (status_config (lit "Invalid API key. Please check and try again.")
                            (lit "red")).

(** ** The dialog on the screen *)

(** What can happen to the dialog while it is open: the user edits the
    entry, presses one of the two buttons, or the time set by
    [dialog.after] runs out. *)
Inductive action :=
| Typing (v : str)
| PressTestAndSave
| PressCancel
| Elapse.

(** The callback Tk runs for an action.  The Cancel button's command is
    [self.dialog.destroy]; a pending [after] destroys the window when its
    time is up. *)
Definition handle (a : action) : method APIKeyDialog unit :=
  match a with
  | Typing v => update (set_api_key_var v)
  | PressTestAndSave => test_and_save_key
  | PressCancel => update destroy
  | Elapse => update (fun d => if closing d then destroy d else d)
  end.

(** [root.wait_window(dialog.dialog)]: Tk's event loop runs the callbacks
    until the window is destroyed.  An exception that leaves a callback is
    reported by Tk and goes no further; what the callback had done stays
    done.  A session is the list of what happens while the dialog is open;
    at its end the user closes a window that is still there. *)
Fixpoint wait_window (session : list action) : method APIKeyDialog unit :=
  fun s =>
    if destroyed (fst s) then (Returns tt, s)
    else
      match session with
      | [] => update destroy s
      | a :: rest =>
          match handle a s with
          | (_, s') => wait_window rest s'
          end
      end.

(** Whether a session runs with no exception leaving a callback. *)
Fixpoint quiet (session : list action) (s : APIKeyDialog * world) : bool :=
  if destroyed (fst s) then true
  else
    match session with
    | [] => true
    | a :: rest =>
        match handle a s with
        | (Returns _, s') => quiet rest s'
        | (Raises _, _) => false
        end
    end.

(** ** [class CalculatorApp], from the start *)

(** [CalculatorApp.create_main_ui]: the main window as it first shows,
    with empty entries and an empty history. *)
Definition create_main_ui (m : APIKeyManager) (c : CalculatorAPI) : CalculatorApp :=
  mk_CalculatorApp m c [] [] (lit "Result will appear here") [] [].

(** How [setup_api] leaves the application: with a client and the main
    window, or with the root window destroyed and neither. *)
Inductive startup :=
| Started (a : CalculatorApp)
| Closed.

(** [CalculatorApp.setup_api], run on the key manager [__init__] has
    made, with the session of the dialog should it open. *)
Definition setup_api (session : list action) : method APIKeyManager startup :=
  let! api_key := load_api_key in
  if negb (truthy api_key) then
    let! dialog := io APIKeyDialog_init in
    let! waited := on_object dialog (wait_window session) in
    let api_key := dialog_api_key (snd waited) in
    if negb (truthy api_key) then
      io (showerror (lit "Error")
            (lit "No valid API key provided. Application will close.")) ;!
      ret Closed
    else
      let! m := attr id in
      ret (Started (create_main_ui m (CalculatorAPI_init (default [] api_key))))
  else
    let! m := attr id in
    ret (Started (create_main_ui m (CalculatorAPI_init (default [] api_key)))).

(** [CalculatorApp.__init__] *)
Definition CalculatorApp_init (session : list action) : prog world startup :=
  let! m := APIKeyManager_init in
  fun w =>
    match setup_api session (m, w) with
    | (r, (_, w')) => (r, w')
    end.

(** [CalculatorApp.change_api_key], with the session of its dialog. *)
Definition change_api_key (session : list action) : method CalculatorApp unit :=
  let! dialog := io APIKeyDialog_init in
  let! waited := on_object dialog (wait_window session) in
  if truthy (dialog_api_key (snd waited)) then
    update (set_api_client
              (CalculatorAPI_init (default [] (dialog_api_key (snd waited)))))
  else ret tt.

End Windows.

Section Shorthands.
Context {P : Platform} {F : FernetSuite}.

(** Whether the next answer on the wire is a response with status 200. *)
Definition accepts (w : world) : bool :=
  match wire w with
  | Returns r :: _ => status_code r =? 200
  | _ => false
  end.

(** What is left of the world after [test_api_key]. *)
Definition probed (key : str) (w : world) : world :=
  mk_world (disk w) (home_writable w) (entropy w) (tail (wire w))
           (outbox w ++ [probe_request key]) (dialogs w).

(** What [load_api_key] finds: the decoding of what the credential file
    decrypts to, when there is such a file, it can be read, and its token
    decrypts and decodes. *)
Definition stored (m : APIKeyManager) (w : world) : option str :=
  match disk w !! key_file m with
  | Some f =>
      if readable f
      then decrypt (secret (fernet m)) (data f) ≫= utf8_decode
      else None
  | None => None
  end.

(** The key a dialog hands back is not empty, has no white space around
    it, and is what its manager loads. *)
Definition hands_back_stored (d : APIKeyDialog) (w : world) : Prop :=
  forall k, dialog_api_key d = Some k ->
    k <> [] /\ strip k = k /\
    fst (load_api_key (dialog_key_manager d, w)) = Returns (Some k).

(** The session of the dialog opened on [w] is a quiet one. *)
Definition calm (session : list action) (w : world) : Prop :=
  forall d w1, APIKeyDialog_init w = (Returns d, w1) -> quiet session (d, w1) = true.

End Shorthands.

(** ** A small platform to run the program on

    An instance of each interface, on which the embedding evaluates.  The
    floats are the whole numbers of at most fifteen digits, where CPython's
    [float], [str] and [:.2f] are exact and easy to write down; every other
    literal is refused here, also those CPython accepts.  The cipher is a
    shift with a checksum: it has the laws of the interface and nothing of
    the strength of Fernet. *)
Module Reference.

Definition is_digit (c : Z) : bool := (48 <=? c) && (c <=? 57).

Definition whole_of_str (s : str) : option Z :=
  match s with
  | [] => None
  | _ =>
      if (length s <=? 15)%nat && forallb is_digit s
      then Some (fold_left (fun a c => 10 * a + (c - 48)) s 0)
      else None
  end.

Definition whole_of_int (n : Z) : option Z :=
  if Z.abs n <? 10 ^ 15 then Some n else None.

Definition wording (f : fault) : str :=
  match f with
  | BadFloatLiteral s => lit "could not convert string to float: '" ++ s ++ lit "'"
  | BadFloatArgument => lit "float() argument must be a string or a real number"
  | IntTooLarge => lit "int too large to convert to float"
  | NotSubscriptable => lit "object is not subscriptable"
  | BadIndexType => lit "indices must be integers"
  | MissingKey k => lit "'" ++ k ++ lit "'"
  | IndexOutOfRange => lit "index out of range"
  | CannotEncode _ => lit "'utf-8' codec can't encode: surrogates not allowed"
  | CannotDecode _ => lit "'utf-8' codec can't decode: invalid data"
  | FileNotFound p => lit ("[Errno 2] No such file or directory: '" ++ p ++ "'")
  | PermissionDenied p => lit ("[Errno 13] Permission denied: '" ++ p ++ "'")
  | BadFernetKey => lit "Fernet key must be 32 url-safe base64-encoded bytes."
  | BadToken => []
  | BadJSON => lit "Expecting value"
  | Unreachable => lit "Connection refused"
  end.

#[export] Instance whole_floats : Platform := {|
  float := Z;
  float_of_str := whole_of_str;
  float_of_int := whole_of_int;
  float_str n := int_str n ++ lit ".0";
  float_format_2f n := int_str n ++ lit ".00";
  float_is_zero n := n =? 0;
  describe := wording;
|}.

Definition sum_bytes (l : bytes) : Z := fold_right Z.add 0 l.

Definition is_byteb (b : Z) : bool := (0 <=? b) && (b <? 256).

(** The tag of a token: the key, the nonce and the body summed. *)
Definition tag_of (k : bytes) (nonce : Z) (body : bytes) : Z :=
  (sum_bytes k + nonce + sum_bytes body) mod 256.

Definition shift_encrypt (k : bytes) (r : N) (m : bytes) : bytes :=
  let nonce := Z.of_N r mod 256 in
  let body := (fun x => (x + sum_bytes k) mod 256) <$> m in
  nonce :: body ++ [tag_of k nonce body].

Definition shift_decrypt (k : bytes) (t : bytes) : option bytes :=
  match t with
  | nonce :: (_ :: _) as rest =>
      let body := List.removelast rest in
      if List.last rest 0 =? tag_of k nonce body
      then Some ((fun y => (y - sum_bytes k) mod 256) <$> body)
      else None
  | _ => None
  end.

Definition shift_generate_key (r : N) : bytes :=
  let n := Z.of_N r in
  [n mod 256; (n / 256) mod 256; (n / 65536) mod 256; (n / 16777216) mod 256].

Definition shift_key_ok (k : bytes) : bool :=
  (length k =? 4)%nat && forallb is_byteb k.

#[export] Instance shift_cipher : FernetSuite := {|
  generate_key := shift_generate_key;
  key_ok := shift_key_ok;
  encrypt := shift_encrypt;
  decrypt := shift_decrypt;
|}.

(** A profile with nothing in it. *)
Definition fresh : world := mk_world ∅ true 7 [] [] [].

(** A manager over the key [1; 2; 3; 4]. *)
Definition manager : APIKeyManager :=
  mk_APIKeyManager credential_path [1; 2; 3; 4] (mk_Fernet [1; 2; 3; 4]).

(** A profile whose credential file cannot be read. *)
Definition locked : world :=
  mk_world {[ credential_path := mk_file [0; 1; 1] false true ]} true 7 [] [] [].

(** A profile that is read-only. *)
Definition read_only : world := mk_world ∅ false 7 [] [] [].

(** A response whose first candidate's first text is [t]. *)
Definition answer (t : str) : response :=
  mk_response 200
    (Some (PDict [(lit "candidates",
       PList [PDict [(lit "content",
         PDict [(lit "parts", PList [PDict [(lit "text", PStr t)]])])]])])).

Definition client : CalculatorAPI := CalculatorAPI_init (lit "secret").

(** The window with [a] and [b] typed in. *)
Definition window (a b : str) : CalculatorApp :=
  mk_CalculatorApp manager client a b (lit "Result will appear here") [] [].

(** The fresh profile after [save_api_key "abc"]. *)
Definition saved : world := snd (snd (save_api_key (lit "abc") (manager, fresh))).

(** The token [save_api_key "abc"] wrote, and the same with its first
    octet changed. *)
Definition token : bytes := [7; 107; 108; 109; 85].
Definition flipped : bytes := [8; 107; 108; 109; 85].

(** [saved] with the changed token in the credential file. *)
Definition tampered : world :=
  with_disk (<[credential_path := mk_file flipped true true]> (disk saved)) saved.

(** A profile where the remote end answers once, with [r]. *)
Definition online (r : outcome response) : world := mk_world ∅ true 7 [r] [] [].

End Reference.

(** More of the reference platform: profiles, answers and a dialog. *)
Module Scenes.
Import Reference.

(** A fresh profile with the answers the network will give. *)
Definition profile (answers : list (outcome response)) : world :=
  mk_world ∅ true 7 answers [] [].

(** The manager [__init__] makes on a fresh profile, and the profile with
    its key file. *)
Definition first_manager : APIKeyManager :=
  mk_APIKeyManager credential_path [7; 0; 0; 0] (mk_Fernet [7; 0; 0; 0]).

Definition keyed (answers : list (outcome response)) : world :=
  snd (APIKeyManager_init (profile answers)).

(** The same with a home directory that takes no new file. *)
Definition sealed (answers : list (outcome response)) : world :=
  mk_world (disk (keyed answers)) false 8 answers [] [].

Definition accepted : outcome response := Returns (mk_response 200 None).
Definition denied : outcome response := Returns (mk_response 403 None).

(** The dialog as it opens, then with [v] in its entry. *)
Definition opened : APIKeyDialog :=
  mk_APIKeyDialog None first_manager [] [] None false false.

Definition typed (v : str) : APIKeyDialog :=
  mk_APIKeyDialog None first_manager v [] None false false.

(** A session: the user types a key with blanks around it, presses Test
    and Save, and waits. *)
Definition enter_key : list action :=
  [Typing (lit " key "); PressTestAndSave; Elapse].

(** A profile whose key file holds one octet. *)
Definition corrupt : world :=
  mk_world {[ key_path := mk_file [1] true true ]} true 7 [] [] [].

(** A profile with a credential in a directory that lets go of nothing. *)
Definition pinned : world :=
  mk_world {[ credential_path := mk_file token true true ]} false 7 [] [] [].

(** A profile that holds the key file and the credential "old", with the
    answers the network will give. *)
Definition stocked (answers : list (outcome response)) : world :=
  mk_world {[ key_path := mk_file [7; 0; 0; 0] true true;
              credential_path := mk_file [8; 118; 115; 107; 99] true true ]}
           true 9 answers [] [].

(** The main window on the key "old", after one calculation. *)
Definition shown : CalculatorApp :=
  mk_CalculatorApp first_manager (CalculatorAPI_init (lit "old")) (lit "6") (lit "3")
                   (lit "2.00") [] (lit "6.0 / 3.0 = 2.00" ++ [10]).

(** A response with status 200 and no candidate. *)
Definition blocked : response :=
  mk_response 200 (Some (PDict [(lit "candidates", PList [])])).

End Scenes.

(** Fernet's format over stand-ins for AES and HMAC: a cipher that moves
    each octet by the key and the IV, and a signature that sums.  The
    format is Fernet's, the strength is not; what is shown on it rests on
    the format alone. *)
Module Format.
Import Reference.

(** Each octet moved by the key and by the octet of the IV at its place
    in the block. *)
Definition blocks (sign : Z) (k iv b : bytes) : bytes :=
  imap (fun i x => (x + sign * (sum_bytes k + default 0 (iv !! (i mod 16)%nat))) mod 256) b.

#[export] Instance stand_ins : Primitives := {|
  cbc_encrypt := blocks 1;
  cbc_decrypt := blocks (-1);
  hmac k m := (fun i => (sum_bytes k + 3 * sum_bytes m + 7 * Z.of_nat i) mod 256) <$> seq 0 32;
  urandom r n := (fun i => (37 * Z.of_N r + 11 * Z.of_nat i) mod 256) <$> seq 0 n;
  now r := 1700000000 + Z.of_N r;
|}.

Definition fernet : FernetSuite := fernet_over.

(** The manager [__init__] makes on a fresh profile under this cipher,
    the profile after it, and after [save_api_key "abc"]. *)
Definition manager : APIKeyManager :=
  match fst (APIKeyManager_init (F := fernet) fresh) with
  | Returns m => m
  | Raises _ => mk_APIKeyManager credential_path [] (mk_Fernet [])
  end.

Definition keyed : world := snd (APIKeyManager_init (F := fernet) fresh).

Definition saved : world :=
  snd (snd (save_api_key (F := fernet) (lit "abc") (manager, keyed))).

(** The token in the credential file. *)
Definition token : bytes :=
  default [] (data <$> disk saved !! credential_path).

(** The token with one bit of its last character before the padding
    flipped, [Q] to [S], and the profile with that in the credential
    file. *)
Definition flipped : bytes :=
  take 97 token ++ Z.lxor (default 0 (token !! 97%nat)) 2 :: drop 98 token.

Definition tampered : world :=
  with_disk (<[credential_path := mk_file flipped true true]> (disk saved)) saved.

End Format.

(** * Properties *)

(** A run is its outcome and its final state. *)
Lemma run_parts {A S1 S2} (x : outcome A * (S1 * S2)) :
  x = (fst x, (fst (snd x), snd (snd x))).
Proof. by destruct x as [? [? ?]]. Qed.

(** ** Tactics *)

Ltac bool_to_prop :=
  repeat match goal with
  | H : _ && _ = true |- _ => apply andb_true_iff in H; destruct H
  | H : _ && _ = false |- _ => apply andb_false_iff in H
  | H : negb _ = true |- _ => apply negb_true_iff in H
  | H : negb _ = false |- _ => apply negb_false_iff in H
  | H : (_ <? _) = true |- _ => apply Z.ltb_lt in H
  | H : (_ <? _) = false |- _ => apply Z.ltb_ge in H
  | H : (_ <=? _) = true |- _ => apply Z.leb_le in H
  | H : (_ <=? _) = false |- _ => apply Z.leb_gt in H
  end.

(** Linear arithmetic over the range tests, with quotients and remainders
    by constants. *)
Ltac arith :=
  unfold is_cont, is_surrogate, is_byte in *; bool_to_prop;
  Z.div_mod_to_equations; lia.

(** Settles one conditional of the goal whose test arithmetic decides. *)
Ltac decide_if :=
  match goal with
  | |- context [if ?c then _ else _] =>
      let E := fresh "E" in
      first [ (destruct c eqn:E; [ | exfalso; arith ])
            | (destruct c eqn:E; [ exfalso; arith | ]) ]
  end.

(** Projections of the records and of pairs, and the small boolean
    functions: what a step of a program leaves to compute. *)
Ltac step :=
  cbn [fst snd key_file fernet secret disk home_writable entropy wire outbox dialogs
       with_disk exn_cls exn_msg data readable writable negb andb
       api_key base_url api_client num1_entry num2_entry result_label loading_label
       history_text key_manager set_api_client set_result_label set_loading_label
       history_insert_end status_code json is_ValueError] in *.

(** Unfolds the methods of the credential store, the primitives of the
    world and the combinators. *)
Ltac run :=
  unfold save_api_key, load_api_key, delete_api_key, _get_or_create_encryption_key,
    APIKeyManager_init, Fernet_init, Fernet_generate_key, Fernet_encrypt, Fernet_decrypt,
    str_encode, bytes_decode, path_exists, read_file, write_file, unlink,
    showerror, requests_post, response_json,
    try_except, try_finally, dispatch, any_Exception, or_raise,
    attr, io, update, on in *;
  unfold bind, ret, raise in *; step.

(** ** UTF-8 *)

Lemma utf8_decode_encode_cp c b rest :
  utf8_encode_cp c = Some b ->
  utf8_decode (b ++ rest) = cons c <$> utf8_decode rest.
Proof.
  unfold utf8_encode_cp. intros H.
  repeat match type of H with
         | context [if ?c then _ else _] => destruct c eqn:?
         end; try discriminate; injection H as <-; cbn [app].
  - cbn [utf8_decode]. decide_if. reflexivity.
  - remember (_ :: rest) as r0 eqn:Er. cbn [utf8_decode].
    do 2 decide_if. subst r0. decide_if.
    f_equal. f_equal. arith.
  - remember (_ :: _ :: rest) as r0 eqn:Er. cbn [utf8_decode].
    do 3 decide_if. subst r0. cbn zeta. decide_if.
    f_equal. f_equal. arith.
  - remember (_ :: _ :: _ :: rest) as r0 eqn:Er. cbn [utf8_decode].
    do 4 decide_if. subst r0. cbn zeta. decide_if.
    f_equal. f_equal. arith.
Qed.

Lemma utf8_encode_cp_bytes c b : utf8_encode_cp c = Some b -> is_bytes b.
Proof.
  unfold utf8_encode_cp, is_bytes. intros H.
  repeat match type of H with
         | context [if ?c then _ else _] => destruct c eqn:?
         end; try discriminate; injection H as <-;
    repeat constructor; arith.
Qed.

(** Decoding what was encoded gives the string back. *)
Lemma utf8_decode_encode s : forall b, utf8_encode s = Some b -> utf8_decode b = Some s.
Proof.
  induction s as [|c s IH]; intros b H; cbn [utf8_encode] in H.
  - by injection H as <-.
  - destruct (utf8_encode_cp c) as [bc|] eqn:Ec; [|discriminate].
    destruct (utf8_encode s) as [bs|]; [|discriminate].
    injection H as <-. rewrite (utf8_decode_encode_cp _ _ _ Ec), (IH bs); done.
Qed.

Lemma utf8_encode_bytes s : forall b, utf8_encode s = Some b -> is_bytes b.
Proof.
  induction s as [|c s IH]; intros b H; cbn [utf8_encode] in H.
  - injection H as <-. constructor.
  - destruct (utf8_encode_cp c) as [bc|] eqn:Ec; [|discriminate].
    destruct (utf8_encode s) as [bs|]; [|discriminate].
    injection H as <-. apply Forall_app.
    split; [by eapply utf8_encode_cp_bytes | by apply IH].
Qed.

(** Every string without surrogates has an encoding. *)
Lemma utf8_encode_is_Some s : Forall is_scalar s -> is_Some (utf8_encode s).
Proof.
  induction 1 as [|c s [Hc Hs] _ [b IH]]; [by eexists|].
  cbn [utf8_encode]. rewrite IH.
  assert (is_Some (utf8_encode_cp c)) as [bc ->]; [|by eexists].
  unfold utf8_encode_cp. rewrite Hs.
  repeat match goal with
         | |- context [if ?t then _ else _] => destruct t eqn:?
         end; try (by eexists); exfalso; arith.
Qed.

(** ** The laws, on the reference cipher *)

(** ** The token format *)

Lemma b64_value_not_pad c v : b64_value c = Some v -> (c =? 61) = false.
Proof.
  intros H. apply Z.eqb_neq. intros ->. discriminate.
Qed.

(** Decoding a run of characters of the alphabet moves on by their
    number, position in the group of four included. *)
Lemma a2b_base64_alphabet (p : bytes) :
  Forall (fun c => is_Some (b64_value c)) p ->
  forall quad_pos leftchar pads out,
  0 <= quad_pos < 4 ->
  exists leftchar' pads' out', forall rest,
    a2b_base64 (p ++ rest) quad_pos leftchar pads out
    = a2b_base64 rest ((quad_pos + Z.of_nat (length p)) mod 4) leftchar' pads' out'.
Proof.
  induction 1 as [|c p [v Hv] _ IH]; intros quad_pos leftchar pads out Hq.
  - exists leftchar, pads, out. intros rest. cbn [app length]. f_equal.
    rewrite Z.add_0_r, Z.mod_small; lia.
  - assert (Hnext : (quad_pos + Z.of_nat (length (c :: p))) mod 4
                    = ((quad_pos + 1) mod 4 + Z.of_nat (length p)) mod 4).
    { cbn [length]. rewrite Nat2Z.inj_succ, Zplus_mod_idemp_l. f_equal. lia. }
    rewrite Hnext. cbn [app a2b_base64]. rewrite (b64_value_not_pad _ _ Hv), Hv.
    assert (quad_pos = 0 \/ quad_pos = 1 \/ quad_pos = 2 \/ quad_pos = 3)
      as [-> | [-> | [-> | ->]]] by lia; cbn [Z.eqb Pos.eqb].
    + change ((0 + 1) mod 4) with 1. apply IH. lia.
    + change ((1 + 1) mod 4) with 2. apply IH. lia.
    + change ((2 + 1) mod 4) with 3. apply IH. lia.
    + change ((3 + 1) mod 4) with 0. apply IH. lia.
Qed.

(** The bits the last character before [==] carries beyond the last
    octet are not read: two such characters that agree on their two high
    bits decode alike. *)
Lemma urlsafe_b64decode_slack (p : bytes) (c c' v v' : Z) :
  Forall (fun c => is_Some (b64_value c)) p ->
  Z.of_nat (length p) mod 4 = 1 ->
  b64_value c = Some v -> b64_value c' = Some v' -> v / 16 = v' / 16 ->
  urlsafe_b64decode (p ++ [c'; 61; 61]) = urlsafe_b64decode (p ++ [c; 61; 61]).
Proof.
  intros Hp Hl Hv Hv' Hs. unfold urlsafe_b64decode.
  destruct (a2b_base64_alphabet p Hp 0 0 0 []) as (lc & pads & out & Hrun); [lia|].
  rewrite !Hrun, Z.add_0_l, Hl. cbn [a2b_base64].
  rewrite (b64_value_not_pad _ _ Hv), (b64_value_not_pad _ _ Hv'), Hv, Hv'.
  cbn. by rewrite Hs.
Qed.

Section TokenFormat.
Context {Pr : Primitives}.

(** [Fernet.decrypt] sees a token through its decoding only. *)
Lemma token_decrypt_by_decoding (k t t' : bytes) :
  urlsafe_b64decode t' = urlsafe_b64decode t ->
  token_decrypt k t' = token_decrypt k t.
Proof. intros H. unfold token_decrypt. by rewrite H. Qed.

(** Whatever cipher and signature are underneath, a token that ends in
    [==] decrypts the same with the slack bits of its last character
    changed. *)
Lemma token_decrypt_slack (k p : bytes) (c c' v v' : Z) :
  Forall (fun c => is_Some (b64_value c)) p ->
  Z.of_nat (length p) mod 4 = 1 ->
  b64_value c = Some v -> b64_value c' = Some v' -> v / 16 = v' / 16 ->
  token_decrypt k (p ++ [c'; 61; 61]) = token_decrypt k (p ++ [c; 61; 61]).
Proof. intros. by eapply token_decrypt_by_decoding, urlsafe_b64decode_slack. Qed.

End TokenFormat.

Lemma b64_value_char v : 0 <= v < 64 -> b64_value (b64_char v) = Some v.
Proof.
  intros H. rewrite <- (Z2Nat.id v) by lia.
  assert (Hn : (Z.to_nat v < 64)%nat) by lia.
  generalize dependent (Z.to_nat v). intros n Hn.
  do 64 (destruct n as [|n]; [reflexivity|]). lia.
Qed.

Lemma b64_char_not_pad v : 0 <= v < 64 -> (b64_char v =? 61) = false.
Proof. intros H. eapply b64_value_not_pad, b64_value_char, H. Qed.

(** One character of a group read. *)
Lemma a2b_base64_char v rest quad_pos leftchar pads out :
  0 <= v < 64 ->
  a2b_base64 (b64_char v :: rest) quad_pos leftchar pads out
  = if quad_pos =? 0 then a2b_base64 rest 1 v 0 out
    else if quad_pos =? 1 then
      a2b_base64 rest 2 (v mod 16) 0 (out ++ [leftchar * 4 + v / 16])
    else if quad_pos =? 2 then
      a2b_base64 rest 3 (v mod 4) 0 (out ++ [leftchar * 16 + v / 4])
    else a2b_base64 rest 0 0 0 (out ++ [leftchar * 64 + v]).
Proof.
  intros H. cbn [a2b_base64]. by rewrite b64_char_not_pad, b64_value_char.
Qed.

Ltac read_char :=
  rewrite a2b_base64_char by (Z.div_mod_to_equations; lia); cbn [Z.eqb Pos.eqb].

Lemma list_ind3 {A} (P : list A -> Prop) :
  P [] -> (forall x, P [x]) -> (forall x y, P [x; y]) ->
  (forall x y z l, P l -> P (x :: y :: z :: l)) ->
  forall l, P l.
Proof.
  intros H0 H1 H2 H3.
  assert (H : forall l, P l /\ (forall x, P (x :: l)) /\ (forall x y, P (x :: y :: l))).
  { induction l as [|z l (IH0 & IH1 & IH2)]; [by repeat split|].
    repeat split; [apply IH1 | intros; apply IH2 | intros; by apply H3]. }
  intros l. apply H.
Qed.

(** What [urlsafe_b64encode] writes, [urlsafe_b64decode] reads back. *)
Lemma a2b_base64_encode (b : bytes) :
  is_bytes b -> forall out,
  a2b_base64 (urlsafe_b64encode b) 0 0 0 out = Some (out ++ b).
Proof.
  unfold is_bytes, is_byte.
  induction b as [|x|x y|x y z b IH] using list_ind3; intros Hb out.
  - cbn. by rewrite app_nil_r.
  - apply Forall_cons in Hb as [Hx _]. cbn [urlsafe_b64encode].
    do 2 read_char. change (a2b_base64 [61; 61] 2 ?l 0 ?o) with (Some o).
    do 3 f_equal. Z.div_mod_to_equations; lia.
  - apply Forall_cons in Hb as [Hx Hb]. apply Forall_cons in Hb as [Hy _].
    cbn [urlsafe_b64encode].
    do 3 read_char. change (a2b_base64 [61] 3 ?l 0 ?o) with (Some o).
    rewrite <- app_assoc. cbn [app].
    do 3 f_equal; [| f_equal]; Z.div_mod_to_equations; lia.
  - apply Forall_cons in Hb as [Hx Hb]. apply Forall_cons in Hb as [Hy Hb].
    apply Forall_cons in Hb as [Hz Hb]. cbn [urlsafe_b64encode].
    do 4 read_char. rewrite IH by done. rewrite <- !app_assoc. cbn [app].
    do 3 f_equal; [| f_equal; [| f_equal]]; Z.div_mod_to_equations; lia.
Qed.

Lemma urlsafe_b64decode_encode (b : bytes) :
  is_bytes b -> urlsafe_b64decode (urlsafe_b64encode b) = Some b.
Proof. intros H. unfold urlsafe_b64decode. by rewrite a2b_base64_encode. Qed.

Lemma last_repeat {A} (l : list A) (x d : A) (n : nat) :
  (0 < n)%nat -> List.last (l ++ repeat x n) d = x.
Proof.
  destruct n as [|n]; [lia|]. intros _. cbn [repeat].
  rewrite repeat_cons, app_assoc. apply last_last.
Qed.

Lemma pad_size (m : bytes) :
  exists n : nat, (1 <= n <= 16)%nat /\ ((length m + n) mod 16 = 0)%nat /\
    16 - Z.of_nat (length m) mod 16 = Z.of_nat n.
Proof.
  exists (16 - length m mod 16)%nat.
  pose proof (Nat.mod_upper_bound (length m) 16 ltac:(lia)) as Hm.
  repeat split; try lia.
  - rewrite (Nat.div_mod_eq (length m) 16) at 1.
    replace (16 * (length m / 16) + length m mod 16 + (16 - length m mod 16))%nat
      with ((1 + length m / 16) * 16)%nat by lia.
    apply Nat.Div0.mod_mul.
  - rewrite Nat2Z.inj_sub by lia. by rewrite Nat2Z.inj_mod.
Qed.

Lemma pkcs7_pad_length (m : bytes) : (length (pkcs7_pad m) mod 16 = 0)%nat.
Proof.
  unfold pkcs7_pad. destruct (pad_size m) as (n & Hn & Hl & ->).
  by rewrite length_app, repeat_length, Nat2Z.id.
Qed.

Lemma pkcs7_pad_bytes (m : bytes) : is_bytes m -> is_bytes (pkcs7_pad m).
Proof.
  intros Hm. unfold pkcs7_pad. destruct (pad_size m) as (n & Hn & Hl & ->).
  apply Forall_app. split; [done|].
  apply List.Forall_forall. intros x Hx%repeat_spec. subst x.
  unfold is_byte. lia.
Qed.

Lemma pkcs7_unpad_pad (m : bytes) : pkcs7_unpad (pkcs7_pad m) = Some m.
Proof.
  unfold pkcs7_unpad, pkcs7_pad. destruct (pad_size m) as (n & Hn & Hl & ->).
  rewrite Nat2Z.id, last_repeat by lia. cbn zeta.
  rewrite length_app, repeat_length, Nat2Z.id.
  replace (length m + n - n)%nat with (length m) by lia.
  rewrite drop_app_length, take_app_length.
  rewrite bool_decide_true by done.
  replace (1 <=? Z.of_nat n) with true by (symmetry; apply Z.leb_le; lia).
  replace (Z.of_nat n <=? 16) with true by (symmetry; apply Z.leb_le; lia).
  replace (Z.of_nat n <=? Z.of_nat (length m + n)) with true
    by (symmetry; apply Z.leb_le; lia).
  reflexivity.
Qed.

Lemma timestamp_bytes_bytes (t : Z) : is_bytes (timestamp_bytes t).
Proof.
  unfold timestamp_bytes. cbn [fmap list_fmap].
  repeat (apply Forall_cons; split; [apply Z.mod_pos_bound; lia|]). apply Forall_nil_2.
Qed.

Section FernetOver.
Context {Pr : Primitives} {L : PrimitiveLaws Pr}.

(** Fernet over primitives that keep their laws is a cipher that gives
    back what it was given. *)
Lemma fernet_over_laws : FernetLaws fernet_over.
Proof.
  split.
  - intros r. cbn [key_ok generate_key fernet_over].
    unfold token_key_ok, token_generate_key.
    rewrite urlsafe_b64decode_encode by apply urandom_bytes.
    by rewrite urandom_length.
  - intros k r m _ Hm. cbn [encrypt decrypt fernet_over].
    unfold token_encrypt, token_decrypt.
    set (raw := default [] (urlsafe_b64decode k)).
    set (iv := urandom r 16).
    set (ct := cbc_encrypt (encryption_key raw) iv (pkcs7_pad m)).
    set (ts := timestamp_bytes (now r)).
    set (basic := 128 :: ts ++ iv ++ ct).
    set (tag := hmac (signing_key raw) basic).
    assert (Hts : length ts = 8%nat) by reflexivity.
    assert (Hiv : length iv = 16%nat) by apply urandom_length.
    assert (Htag : length tag = 32%nat) by apply hmac_length.
    assert (Hct : length ct = length (pkcs7_pad m)) by apply cbc_encrypt_length.
    rewrite urlsafe_b64decode_encode.
    2: { apply Forall_app. split; [|apply hmac_bytes].
         apply Forall_cons. split; [unfold is_byte; lia|].
         apply Forall_app. split; [apply timestamp_bytes_bytes|].
         apply Forall_app. split; [apply urandom_bytes | apply cbc_encrypt_bytes]. }
    cbn zeta.
    replace (length (basic ++ tag) - 32)%nat with (length basic)
      by (rewrite length_app; lia).
    rewrite take_app_length, drop_app_length.
    rewrite (bool_decide_true (head _ = _)) by done.
    replace (9 <=? length (basic ++ tag))%nat with true.
    2: { symmetry. apply Nat.leb_le. rewrite length_app. unfold basic.
         cbn [length]. rewrite length_app. lia. }
    cbn [andb]. rewrite bool_decide_true by done.
    replace (drop 25 basic) with ct.
    2: { unfold basic. change 25%nat with (S 24). cbn [drop].
         rewrite app_assoc. rewrite drop_app_length'; [done|].
         rewrite length_app. lia. }
    replace (take 16 (drop 9 (basic ++ tag))) with iv.
    2: { unfold basic. change 9%nat with (S 8). cbn [app drop].
         rewrite <- !app_assoc. rewrite drop_app_length' by done.
         by rewrite take_app_length'. }
    rewrite Hct, pkcs7_pad_length. cbn [Nat.eqb].
    unfold ct. rewrite cbc_decrypt_encrypt
      by (auto using pkcs7_pad_bytes, pkcs7_pad_length).
    apply pkcs7_unpad_pad.
Qed.

End FernetOver.

(** The stand-ins of [Format] keep the laws. *)
Module FormatLaws.
Import Reference Format.

Lemma imap_inverse (f g : nat -> Z -> Z) (p : bytes) :
  (forall i x, is_byte x -> g i (f i x) = x) -> is_bytes p ->
  imap g (imap f p) = p.
Proof.
  intros H Hp. revert f g H.
  induction Hp as [|x p Hx _ IH]; intros f g H; [done|].
  cbn [imap]. rewrite H by done. f_equal. apply IH. intros i y. apply H.
Qed.

Lemma imap_bytes (f : nat -> Z -> Z) (p : bytes) :
  (forall i x, is_byte (f i x)) -> is_bytes (imap f p).
Proof.
  revert f. induction p as [|x p IH]; intros f H; [constructor|].
  cbn [imap]. constructor; [apply H|]. apply IH. intros i y. apply H.
Qed.

Lemma fmap_seq_bytes (f : nat -> Z) (n : nat) :
  (forall i, is_byte (f i)) -> is_bytes (f <$> seq 0 n).
Proof. intros H. apply Forall_fmap, Forall_true. intros i. apply H. Qed.

Lemma stand_ins_laws : PrimitiveLaws stand_ins.
Proof.
  split.
  - intros k iv p Hp _. cbn [cbc_decrypt cbc_encrypt stand_ins]. unfold blocks.
    apply imap_inverse; [|done]. intros i x Hx. unfold is_byte in Hx.
    Z.div_mod_to_equations. lia.
  - intros k iv p. cbn [cbc_encrypt stand_ins]. unfold blocks. apply length_imap.
  - intros k iv p. cbn [cbc_encrypt stand_ins]. unfold blocks.
    apply imap_bytes. intros i x. apply Z.mod_pos_bound. lia.
  - intros k m. cbn [hmac stand_ins]. by rewrite length_fmap, length_seq.
  - intros k m. cbn [hmac stand_ins]. apply fmap_seq_bytes.
    intros i. apply Z.mod_pos_bound. lia.
  - intros r n. cbn [urandom stand_ins]. by rewrite length_fmap, length_seq.
  - intros r n. cbn [urandom stand_ins]. apply fmap_seq_bytes.
    intros i. apply Z.mod_pos_bound. lia.
Qed.

Lemma fernet_laws : FernetLaws fernet.
Proof. apply (fernet_over_laws (L := stand_ins_laws)). Qed.

End FormatLaws.

Module ReferenceLaws.
Import Reference.

Lemma unshift_shift k (m : bytes) :
  is_bytes m ->
  (fun y => (y - sum_bytes k) mod 256) <$> ((fun x => (x + sum_bytes k) mod 256) <$> m) = m.
Proof.
  induction 1 as [|x m Hx _ IH]; [done|].
  cbn [fmap list_fmap]. f_equal; [|exact IH].
  unfold is_byte in Hx. Z.div_mod_to_equations. lia.
Qed.

Lemma shifted_bytes k (m : bytes) : is_bytes ((fun x => (x + sum_bytes k) mod 256) <$> m).
Proof.
  induction m as [|x m IH]; constructor; [|exact IH].
  unfold is_byte. Z.div_mod_to_equations. lia.
Qed.

Lemma sum_bytes_app l1 l2 : sum_bytes (l1 ++ l2) = sum_bytes l1 + sum_bytes l2.
Proof. induction l1 as [|x l1 IH]; cbn; [done|]. unfold sum_bytes in *. lia. Qed.

Lemma shift_decrypt_token k nonce body tag :
  shift_decrypt k (nonce :: body ++ [tag]) =
  if tag =? tag_of k nonce body
  then Some ((fun y => (y - sum_bytes k) mod 256) <$> body) else None.
Proof.
  unfold shift_decrypt.
  destruct (body ++ [tag]) as [|x l] eqn:E; [by destruct body|].
  rewrite <- E, removelast_last, last_last. reflexivity.
Qed.

Lemma shift_decrypt_encrypt k r m :
  is_bytes m -> shift_decrypt k (shift_encrypt k r m) = Some m.
Proof.
  intros Hm. unfold shift_encrypt. rewrite shift_decrypt_token, Z.eqb_refl.
  by rewrite unshift_shift.
Qed.

Lemma shift_generate_key_ok r : shift_key_ok (shift_generate_key r) = true.
Proof.
  unfold shift_key_ok, shift_generate_key, is_byteb.
  cbn [length forallb Nat.eqb andb].
  repeat (apply andb_true_intro; split); try reflexivity;
    try (apply Z.leb_le); try (apply Z.ltb_lt); Z.div_mod_to_equations; lia.
Qed.

Lemma shift_decrypt_modified k r m t' :
  one_byte_changed (shift_encrypt k r m) t' -> shift_decrypt k t' = None.
Proof.
  intros (l1 & b & b' & l2 & Ht & -> & Hne & Hb'). unfold shift_encrypt in Ht.
  set (body := (fun x => (x + sum_bytes k) mod 256) <$> m) in *.
  assert (Hbody : is_bytes body) by apply shifted_bytes.
  destruct l1 as [|n l1]; cbn [app] in *.
  - injection Ht as <- <-. rewrite shift_decrypt_token.
    destruct (Z.eqb_spec (tag_of k (Z.of_N r `mod` 256) body) (tag_of k b' body))
      as [E|]; [|done].
    exfalso. unfold tag_of, is_byte in *. Z.div_mod_to_equations. lia.
  - injection Ht as <- Ht.
    destruct l2 as [|x l2 _] using rev_ind.
    + apply app_inj_tail in Ht as [-> <-]. rewrite shift_decrypt_token.
      destruct (Z.eqb_spec b' (tag_of k (Z.of_N r `mod` 256) l1)); [congruence|done].
    + change (l1 ++ b :: l2 ++ [x]) with (l1 ++ (b :: l2) ++ [x]) in Ht.
      rewrite app_assoc in Ht. apply app_inj_tail in Ht as [Hb <-].
      change (l1 ++ b' :: l2 ++ [tag_of k (Z.of_N r `mod` 256) body])
        with (l1 ++ (b' :: l2) ++ [tag_of k (Z.of_N r `mod` 256) body]).
      rewrite app_assoc, shift_decrypt_token.
      destruct (Z.eqb_spec (tag_of k (Z.of_N r `mod` 256) body)
                  (tag_of k (Z.of_N r `mod` 256) (l1 ++ b' :: l2))) as [E|]; [|done].
      exfalso.
      assert (Hb0 : is_byte b).
      { rewrite Hb in Hbody. apply Forall_app in Hbody as [_ Hbody].
        by inversion Hbody. }
      unfold tag_of in E. rewrite Hb, !sum_bytes_app in E.
      change (sum_bytes (b :: l2)) with (b + sum_bytes l2) in E.
      change (sum_bytes (b' :: l2)) with (b' + sum_bytes l2) in E.
      unfold is_byte in *. Z.div_mod_to_equations. lia.
Qed.

Lemma shift_laws : FernetLaws shift_cipher.
Proof.
  split.
  - exact shift_generate_key_ok.
  - intros k r m _ Hm. by apply shift_decrypt_encrypt.
Qed.

Lemma shift_integrity : Integrity shift_cipher.
Proof.
  split. intros k r m t' m' _ _ Ht Hd.
  change (shift_decrypt k t' = Some m') in Hd.
  by rewrite (shift_decrypt_modified _ _ _ _ Ht) in Hd.
Qed.

End ReferenceLaws.

Section Properties.
Context {P : Platform} {F : FernetSuite}.

(** ** The credential store *)

Lemma absent (d : gmap string file) (p : string) :
  d !! p = None -> bool_decide (is_Some (d !! p)) = false.
Proof. intros ->. apply bool_decide_eq_false_2. by intros [? ?]. Qed.

Lemma present (d : gmap string file) (p : string) :
  is_Some (d !! p) -> bool_decide (is_Some (d !! p)) = true.
Proof. apply bool_decide_eq_true_2. Qed.

(** Settles the test of [path_exists]. *)
Ltac probe :=
  first [ rewrite present by eauto
        | rewrite absent by done
        | rewrite bool_decide_eq_true_2 by eauto
        | rewrite bool_decide_eq_false_2 by (by intros [? ?]) ].

(** A [save_api_key] that returned has encoded the string and put the
    token in the credential file; a file that was there keeps its read
    permission. *)
Lemma save_api_key_run (m : APIKeyManager) (w : world) (s : str) m' w' :
  save_api_key s (m, w) = (Returns tt, (m', w')) ->
  exists plain,
    utf8_encode s = Some plain /\ m' = m /\
    disk w' = <[key_file m :=
                  mk_file (encrypt (secret (fernet m)) (entropy w) plain)
                    (default true (readable <$> disk w !! key_file m)) true]> (disk w).
Proof.
  run. destruct (utf8_encode s) as [plain|]; [|discriminate].
  cbn [fst snd disk]. destruct (disk w !! key_file m) as [f|] eqn:Ef.
  - destruct (writable f); [|discriminate]. intros [= <- <-]. eauto.
  - destruct (home_writable w); [|discriminate]. intros [= <- <-]. eauto.
Qed.

(** [save_api_key] does return, for a string that can be encoded and a
    credential file that can be written. *)
Lemma save_api_key_returns (m : APIKeyManager) (w : world) (s : str) :
  is_Some (utf8_encode s) -> ~ unwritable (key_file m) w ->
  exists w', save_api_key s (m, w) = (Returns tt, (m, w')).
Proof.
  intros [plain He] Hu. unfold unwritable in Hu. run. rewrite He. step.
  destruct (disk w !! key_file m) as [f|].
  - destruct (writable f); [eauto | done].
  - destruct (home_writable w); [eauto | done].
Qed.

(** What [load_api_key] computes, in one expression. *)
Lemma load_api_key_run (m : APIKeyManager) (w : world) :
  load_api_key (m, w) =
  (Returns match disk w !! key_file m with
           | Some f =>
               if readable f
               then decrypt (secret (fernet m)) (data f) ≫= utf8_decode
               else None
           | None => None
           end, (m, w)).
Proof.
  run. destruct (disk w !! key_file m) as [f|] eqn:Ef.
  - probe. step. rewrite Ef. step.
    destruct (readable f); [|done]. step.
    destruct (decrypt _ _) as [plain|]; [|done]. cbn [mbind option_bind].
    by destruct (utf8_decode plain).
  - probe. done.
Qed.

(** The manager [__init__] builds has the credential path, and a key its
    cipher accepts. *)
Lemma APIKeyManager_init_run (w w' : world) (m : APIKeyManager) :
  APIKeyManager_init w = (Returns m, w') ->
  key_file m = credential_path /\
  key_ok (secret (fernet m)) = true /\
  key_encryption_key m = secret (fernet m).
Proof.
  unfold APIKeyManager_init, Fernet_init, bind, ret, raise.
  destruct (_get_or_create_encryption_key w) as [[k|e] w1]; [|discriminate].
  destruct (key_ok k) eqn:Hk; [|discriminate]. by intros [= <- _].
Qed.

(** C1. Round trip: when [save_api_key s] has returned, [load_api_key]
    by the same manager on the world it left returns exactly [s]; and
    [save_api_key s] does return when [s] can be encoded and the
    credential file can be written.  The manager holds a key its cipher
    accepts, as every constructed manager does, and a credential file that
    was already there can be read. *)
Theorem save_then_load `{!FernetLaws F} (m : APIKeyManager) (w : world) (s : str) :
  key_ok (secret (fernet m)) = true ->
  (forall f, disk w !! key_file m = Some f -> readable f = true) ->
  (forall m' w', save_api_key s (m, w) = (Returns tt, (m', w')) ->
     load_api_key (m', w') = (Returns (Some s), (m', w'))) /\
  (is_Some (utf8_encode s) -> ~ unwritable (key_file m) w ->
     exists w', save_api_key s (m, w) = (Returns tt, (m, w'))).
Proof.
  intros Hk Hr. split; [|apply save_api_key_returns].
  intros m' w' Hs. apply save_api_key_run in Hs as (plain & He & -> & Hd).
  assert (default true (readable <$> disk w !! key_file m) = true) as Hrd.
  { destruct (disk w !! key_file m) eqn:E; [cbn; eauto | done]. }
  rewrite Hrd in Hd. clear Hrd Hr.
  rewrite load_api_key_run, Hd, lookup_insert_eq. step.
  rewrite decrypt_encrypt by eauto using utf8_encode_bytes.
  cbn [mbind option_bind]. by rewrite (utf8_decode_encode _ _ He).
Qed.

(** C2, as amended. [load_api_key] never raises and changes nothing.  It
    returns [None] when the credential file does not exist and when the
    token in it does not decrypt; a string it returns is the decoding of
    what the token decrypts to.  On a saved token of which one octet was
    changed it returns [None] whenever the cipher rejects the changed
    token; and, the signature being one that cannot be forged, it returns
    [None] or the string that was saved, no other string. *)
Theorem load_None_on_failure (m : APIKeyManager) (w : world) :
  (exists r, load_api_key (m, w) = (Returns r, (m, w))) /\
  (disk w !! key_file m = None -> load_api_key (m, w) = (Returns None, (m, w))) /\
  (forall f, disk w !! key_file m = Some f ->
     decrypt (secret (fernet m)) (data f) = None ->
     load_api_key (m, w) = (Returns None, (m, w))) /\
  (forall s, fst (load_api_key (m, w)) = Returns (Some s) ->
     exists f plain, disk w !! key_file m = Some f /\
       decrypt (secret (fernet m)) (data f) = Some plain /\
       utf8_decode plain = Some s) /\
  (forall s m1 w1 f t' w2,
     key_ok (secret (fernet m)) = true ->
     save_api_key s (m, w) = (Returns tt, (m1, w1)) ->
     disk w1 !! key_file m = Some f ->
     one_byte_changed (data f) t' ->
     disk w2 !! key_file m = Some (mk_file t' (readable f) (writable f)) ->
     (decrypt (secret (fernet m)) t' = None ->
        load_api_key (m1, w2) = (Returns None, (m1, w2))) /\
     (Integrity F ->
        load_api_key (m1, w2) = (Returns None, (m1, w2)) \/
        load_api_key (m1, w2) = (Returns (Some s), (m1, w2)))).
Proof.
  repeat apply conj.
  - rewrite load_api_key_run. eauto.
  - intros E. by rewrite load_api_key_run, E.
  - intros f E Hd. rewrite load_api_key_run, E, Hd. by destruct (readable f).
  - rewrite load_api_key_run. cbn [fst]. intros s Hs.
    destruct (disk w !! key_file m) as [f|]; [|done].
    destruct (readable f); [|done].
    destruct (decrypt _ _) as [plain|] eqn:Ed; [|done].
    cbn [mbind option_bind] in Hs. injection Hs as Hs. by exists f, plain.
  - intros s m1 w1 f t' w2 Hk Hs Hf Ht Hw2.
    apply save_api_key_run in Hs as (plain & He & -> & Hd).
    rewrite Hd, lookup_insert_eq in Hf. injection Hf as <-. step.
    rewrite load_api_key_run, Hw2. step. split.
    + intros ->. by destruct (default _ _).
    + intros HI. destruct (default _ _); [|by left].
      destruct (decrypt (secret (fernet m)) t') as [plain'|] eqn:Ed; [|by left].
      right.
      rewrite (decrypt_changed _ _ _ _ _ Hk (utf8_encode_bytes _ _ He) Ht Ed).
      cbn [mbind option_bind]. by rewrite (utf8_decode_encode _ _ He).
Qed.

(** C3. [_get_or_create_encryption_key] returns the bytes of a key file
    that is there (and can be read) and leaves the world as it was; with no
    key file, in a directory that takes one, it generates a key, writes it
    to the key path and returns it; and a call that returned is followed
    by calls that return the same key and change nothing. *)
Theorem get_or_create_idempotent (w : world) :
  (forall f, disk w !! key_path = Some f -> readable f = true ->
     _get_or_create_encryption_key w = (Returns (data f), w)) /\
  (disk w !! key_path = None -> home_writable w = true ->
     exists w', _get_or_create_encryption_key w
                = (Returns (generate_key (entropy w)), w') /\
       disk w' = <[key_path := mk_file (generate_key (entropy w)) true true]> (disk w)) /\
  (forall k w', _get_or_create_encryption_key w = (Returns k, w') ->
     _get_or_create_encryption_key w' = (Returns k, w')).
Proof.
  repeat apply conj.
  - intros f E Hr. run. probe. step. by rewrite E, Hr.
  - intros E Hw. run. probe. step. rewrite E, Hw. step. eauto.
  - intros k w'. run. destruct (disk w !! key_path) as [f|] eqn:E.
    + probe. step. rewrite E.
      destruct (readable f) eqn:Hr; [|done]. intros [= <- <-].
      probe. step. by rewrite E, Hr.
    + probe. step. rewrite E.
      destruct (home_writable w); [|done]. step. intros [= <- <-]. step.
      rewrite lookup_insert_eq. probe. step. by rewrite lookup_insert_eq.
Qed.

(** C4, as amended. When the file system refuses,
    [_get_or_create_encryption_key] and [save_api_key] raise [OSError]:
    the first for a missing key file that cannot be created and for a key
    file that cannot be read, the second for a credential file that cannot
    be written.  [load_api_key] raises nothing: a credential file that
    cannot be read gives [None], as a token that does not decrypt does. *)
Theorem storage_errors (m : APIKeyManager) (w : world) :
  (disk w !! key_path = None -> home_writable w = false ->
     raised_cls OSError (fst (_get_or_create_encryption_key w))) /\
  (forall f, disk w !! key_path = Some f -> readable f = false ->
     raised_cls OSError (fst (_get_or_create_encryption_key w))) /\
  (forall s, is_Some (utf8_encode s) -> unwritable (key_file m) w ->
     raised_cls OSError (fst (save_api_key s (m, w)))) /\
  ~ raised (fst (load_api_key (m, w))) /\
  (forall f, disk w !! key_file m = Some f -> readable f = false ->
     load_api_key (m, w) = (Returns None, (m, w))).
Proof.
  repeat apply conj.
  - intros E Hw. run. probe. step. rewrite E, Hw. step. by eexists.
  - intros f E Hr. run. probe. step. rewrite E, Hr. by eexists.
  - intros s [plain He] Hu. unfold unwritable in Hu. run. rewrite He. step.
    destruct (disk w !! key_file m) as [f|]; rewrite Hu; by eexists.
  - rewrite load_api_key_run. intros [e He]. done.
  - intros f E Hr. by rewrite load_api_key_run, E, Hr.
Qed.

(** C8. With no credential file, [delete_api_key] returns without
    raising and changes nothing, and [load_api_key] returns [None]; with a
    credential file, in a directory that lets go of it, [delete_api_key]
    removes it. *)
Theorem delete_semantics (m : APIKeyManager) (w : world) :
  (disk w !! key_file m = None ->
     delete_api_key (m, w) = (Returns tt, (m, w)) /\
     load_api_key (m, w) = (Returns None, (m, w))) /\
  (is_Some (disk w !! key_file m) -> home_writable w = true ->
     exists w', delete_api_key (m, w) = (Returns tt, (m, w')) /\
       disk w' = delete (key_file m) (disk w) /\
       disk w' !! key_file m = None).
Proof.
  split.
  - intros E. split; [|by rewrite load_api_key_run, E].
    run. by probe.
  - intros [f E] Hw. run. probe. step.
    rewrite E, Hw. eexists. split; [done|]. step. split; [done|].
    apply lookup_delete_eq.
Qed.

Lemma credential_path_not_key_path : credential_path <> key_path.
Proof. done. Qed.

(** C10. For a manager on the credential path, whatever the outcome:
    [save_api_key] and [delete_api_key] leave the manager, and so its key,
    as it was, and every file but the credential file, the key file among
    them, as it was; [load_api_key] leaves the manager and the whole world
    as they were. *)
Theorem credential_operations_frame (m : APIKeyManager) (w : world) :
  key_file m = credential_path ->
  (forall s r m' w', save_api_key s (m, w) = (r, (m', w')) ->
     m' = m /\ disk w' !! key_path = disk w !! key_path /\
     forall p, p <> credential_path -> disk w' !! p = disk w !! p) /\
  (forall r m' w', load_api_key (m, w) = (r, (m', w')) -> m' = m /\ w' = w) /\
  (forall r m' w', delete_api_key (m, w) = (r, (m', w')) ->
     m' = m /\ disk w' !! key_path = disk w !! key_path /\
     forall p, p <> credential_path -> disk w' !! p = disk w !! p).
Proof.
  intros Hp.
  assert (Hframe : forall d d' : gmap string file,
    (forall p, p <> credential_path -> d' !! p = d !! p) ->
    d' !! key_path = d !! key_path /\
    forall p, p <> credential_path -> d' !! p = d !! p).
  { intros d d' H. split; [|done]. apply H. by intros ?. }
  split; [|split].
  - intros s r m' w' H. run.
    destruct (utf8_encode s); [|by injection H as _ <- <-].
    step. rewrite Hp in H. destruct (disk w !! credential_path) as [f|];
      [destruct (writable f) | destruct (home_writable w)]; injection H as _ <- <-;
      (split; [done|]); apply Hframe; intros p Hne; step;
      by rewrite ?lookup_insert_ne.
  - intros r m' w' H. rewrite load_api_key_run in H. by injection H as _ <- <-.
  - intros r m' w' H. run. rewrite Hp in H.
    destruct (bool_decide _); step; [|by injection H as _ <- <-].
    destruct (disk w !! credential_path) as [f|];
      [destruct (home_writable w)|]; injection H as _ <- <-;
      (split; [done|]); apply Hframe; intros p Hne; step;
      by rewrite ?lookup_delete_ne.
Qed.

(** ** The calculation client *)

Lemma or_raise_run {S A} (o : option A) (e : exn) (s : S) :
  or_raise o e s = (match o with Some a => Returns a | None => Raises e end, s).
Proof. by destruct o. Qed.

(** Indexing and conversion neither read nor change the state. *)
Lemma subscript_pure {S} (o : pyobj) (i : index) (s : S) :
  subscript o i s = (fst (subscript (S:=unit) o i tt), s).
Proof.
  destruct o, i; cbn [subscript]; rewrite ?or_raise_run; try reflexivity.
  all: by rewrite or_raise_run.
Qed.

Lemma float_pure {S} (o : pyobj) (s : S) :
  float_ o s = (fst (float_ (S:=unit) o tt), s).
Proof.
  destruct o; cbn [float_]; rewrite ?or_raise_run; try reflexivity.
  all: by rewrite or_raise_run.
Qed.

Lemma first_text_pure {S} (body : pyobj) (s : S) :
  first_text body s = (fst (first_text (S:=unit) body tt), s).
Proof.
  unfold first_text, bind.
  repeat match goal with
  | |- context [subscript ?o ?i s] =>
      rewrite (subscript_pure o i s);
      destruct (subscript (S:=unit) o i tt) as [[?|?] []]; cbn [fst]; [|reflexivity]
  end.
  reflexivity.
Qed.

(** [call_api] leaves its receiver as it was, and of the world changes the
    wire and the outbox only: the request has gone out whatever came
    back. *)
Lemma call_api_state n1 n2 op (c : CalculatorAPI) (w : world) :
  snd (call_api n1 n2 op (c, w)) = (c, after_call n1 n2 op c w).
Proof.
  unfold call_api, after_call, sent. run.
  destruct (wire w) as [|[r|e] rest]; step; try reflexivity.
  destruct (status_code r =? 200); step; [|reflexivity].
  destruct (json r) as [body|]; step; [|reflexivity].
  rewrite first_text_pure.
  destruct (first_text (S:=unit) body tt) as [[o|e] []]; step; [|reflexivity].
  rewrite float_pure. by destruct (float_ (S:=unit) o tt) as [[x|e] []].
Qed.

(** Whatever [call_api] raises is a plain [Exception] whose message starts
    with "API call failed: ". *)
Lemma call_api_raises n1 n2 op (c : CalculatorAPI) (w : world) e :
  fst (call_api n1 n2 op (c, w)) = Raises e ->
  exn_cls e = Exception /\
  exists m, exn_msg e = lit "API call failed: " ++ m.
Proof.
  unfold call_api. run.
  destruct (wire w) as [|[r|e1] rest]; step; try (intros [= <-]; step; by eauto).
  destruct (status_code r =? 200); step; [|intros [= <-]; step; by eauto].
  destruct (json r) as [body|]; step; [|intros [= <-]; step; by eauto].
  rewrite first_text_pure.
  destruct (first_text (S:=unit) body tt) as [[o|e1] []]; step;
    [|intros [= <-]; step; by eauto].
  rewrite float_pure. destruct (float_ (S:=unit) o tt) as [[x|e1] []]; step;
    [done|intros [= <-]; step; by eauto].
Qed.

(** The outcome of [call_api] on a response with status 200 and a JSON
    body that has a first text. *)
Lemma call_api_answer n1 n2 op (c : CalculatorAPI) (w : world) r rest body o :
  wire w = Returns r :: rest -> status_code r = 200 -> json r = Some body ->
  fst (first_text (S:=unit) body tt) = Returns o ->
  fst (call_api n1 n2 op (c, w)) =
  match fst (float_ (S:=unit) o tt) with
  | Returns x => Returns x
  | Raises e => Raises (mk_exn Exception (lit "API call failed: " ++ exn_msg e))
  end.
Proof.
  intros Hw Hs Hj Ht. unfold call_api. run. rewrite Hw. step.
  rewrite Hs. cbn [Z.eqb Pos.eqb]. rewrite Hj. step.
  rewrite first_text_pure, Ht. step.
  rewrite float_pure. by destruct (float_ (S:=unit) o tt) as [[x|e] []].
Qed.

(** The failures of the remote end: a transport error, and a status other
    than 200. *)
Lemma call_api_transport_error n1 n2 op (c : CalculatorAPI) (w : world) e rest :
  wire w = Raises e :: rest ->
  fst (call_api n1 n2 op (c, w))
  = Raises (mk_exn Exception (lit "API call failed: " ++ exn_msg e)).
Proof. intros Hw. unfold call_api. run. by rewrite Hw. Qed.

Lemma call_api_bad_status n1 n2 op (c : CalculatorAPI) (w : world) r rest :
  wire w = Returns r :: rest -> status_code r <> 200 ->
  fst (call_api n1 n2 op (c, w))
  = Raises (mk_exn Exception
              (lit "API call failed: " ++ lit "API Error: " ++ int_str (status_code r))).
Proof.
  intros Hw Hs. unfold call_api. run. rewrite Hw. step.
  by destruct (Z.eqb_spec (status_code r) 200).
Qed.

(** C5. When the response has status 200 and the first text of its first
    candidate is a string that [float] refuses, [call_api] raises: an
    [Exception] whose message is "API call failed: " followed by the
    message of [float]'s [ValueError].  It returns no number. *)
Theorem unparsable_answer_is_an_error (c : CalculatorAPI) (w : world)
    (n1 n2 : float) (op : str) r rest body t :
  wire w = Returns r :: rest -> status_code r = 200 -> json r = Some body ->
  fst (first_text (S:=unit) body tt) = Returns (PStr t) ->
  float_of_str t = None ->
  call_api n1 n2 op (c, w) =
  (Raises (mk_exn Exception
             (lit "API call failed: " ++ describe (BadFloatLiteral t))),
   (c, after_call n1 n2 op c w)).
Proof.
  intros Hw Hs Hj Ht Hf.
  rewrite (surjective_pairing (call_api n1 n2 op (c, w))), call_api_state.
  rewrite (call_api_answer _ _ _ _ _ _ _ _ _ Hw Hs Hj Ht).
  cbn [float_]. by rewrite or_raise_run, Hf.
Qed.

Lemma symbol_table :
  symbol add = lit "+" /\ symbol subtract = lit "-" /\
  symbol multiply = lit "*" /\ symbol divide = lit "/".
Proof. by vm_compute. Qed.

(** C6. When the second entry reads as a float equal to zero and the
    operation is the one of the Divide button, [calculate] shows an error
    box and returns with the outbox and the wire as they were: no request
    has gone out.  The history and the result stay as well. *)
Theorem zero_divisor_guard (a : CalculatorApp) (w : world) (z : float) :
  float_of_str (num2_entry a) = Some z ->
  float_is_zero z = true ->
  exists a' w' message,
    calculate (symbol divide) (a, w) = (Returns tt, (a', w')) /\
    outbox w' = outbox w /\ wire w' = wire w /\
    dialogs w' = dialogs w ++ [(lit "Error", message)] /\
    (is_Some (float_of_str (num1_entry a)) -> message = lit "Cannot divide by zero") /\
    history_text a' = history_text a /\ result_label a' = result_label a.
Proof.
  intros H2 Hz. destruct symbol_table as (_ & _ & _ & ->).
  unfold calculate, float_. run.
  destruct (float_of_str (num1_entry a)) as [n1|]; step.
  - rewrite H2. step. rewrite bool_decide_eq_true_2 by done. rewrite Hz. step.
    by eexists _, _, _.
  - eexists _, _, _. repeat apply conj; try reflexivity. by intros [? ?].
Qed.

(** C9. When both entries read as floats, the guard against a zero
    divisor lets the request through and [call_api] raises, [calculate]
    shows the message of the exception and returns with the history, the
    result, the entries and the client as they were, and the loading label
    empty. *)
Theorem failed_call_leaves_state (a : CalculatorApp) (w : world)
    (op : str) (n1 n2 : float) (e : exn) c1 w1 :
  float_of_str (num1_entry a) = Some n1 ->
  float_of_str (num2_entry a) = Some n2 ->
  bool_decide (op = lit "/") && float_is_zero n2 = false ->
  call_api n1 n2 op (api_client a, w) = (Raises e, (c1, w1)) ->
  exists a' w',
    calculate op (a, w) = (Returns tt, (a', w')) /\
    history_text a' = history_text a /\
    result_label a' = result_label a /\
    num1_entry a' = num1_entry a /\ num2_entry a' = num2_entry a /\
    api_client a' = api_client a /\
    loading_label a' = [] /\
    dialogs w' = dialogs w ++ [(lit "Error", exn_msg e)].
Proof.
  intros H1 H2 Hg Hc.
  pose proof (call_api_state n1 n2 op (api_client a) w) as Hs.
  pose proof (call_api_raises n1 n2 op (api_client a) w e) as Hr.
  rewrite Hc in Hs, Hr. cbn [fst snd] in Hs, Hr. injection Hs as -> ->.
  destruct (Hr eq_refl) as [Hcls _]. clear Hr.
  unfold calculate, float_. run. rewrite H1. step. rewrite H2. step.
  rewrite Hg. step. rewrite Hc. step. rewrite Hcls. step.
  by eexists _, _.
Qed.

(** The line a calculation that went through adds to the history. *)
Lemma calculate_success (a : CalculatorApp) (w : world)
    (op : str) (n1 n2 x : float) c1 w1 :
  float_of_str (num1_entry a) = Some n1 ->
  float_of_str (num2_entry a) = Some n2 ->
  bool_decide (op = lit "/") && float_is_zero n2 = false ->
  call_api n1 n2 op (api_client a, w) = (Returns x, (c1, w1)) ->
  exists a',
    calculate op (a, w) = (Returns tt, (a', w1)) /\
    history_text a' = history_text a ++ history_line n1 n2 op x /\
    result_label a' = float_format_2f x.
Proof.
  intros H1 H2 Hg Hc.
  unfold calculate, float_. run. rewrite H1. step. rewrite H2. step.
  rewrite Hg. step. rewrite Hc. step. by eexists.
Qed.

Lemma contains_middle (pre x post : str) : contains x (pre ++ x ++ post).
Proof. by exists pre, post. Qed.

Lemma instruction_contains (n1 n2 : float) (op : str) :
  contains (float_str n1) (instruction n1 n2 op) /\
  contains op (instruction n1 n2 op) /\
  contains (float_str n2) (instruction n1 n2 op) /\
  contains (lit "return only the numerical result") (instruction n1 n2 op).
Proof.
  unfold instruction. repeat apply conj.
  - apply contains_middle.
  - exists (lit "Calculate " ++ float_str n1 ++ lit " "),
           (lit " " ++ float_str n2 ++ lit " and return only the numerical result").
    by rewrite <- !app_assoc.
  - exists (lit "Calculate " ++ float_str n1 ++ lit " " ++ op ++ lit " "),
           (lit " and return only the numerical result").
    by rewrite <- !app_assoc.
  - exists (lit "Calculate " ++ float_str n1 ++ lit " " ++ op ++ lit " "
            ++ float_str n2 ++ lit " and "), [].
    rewrite app_nil_r, <- !app_assoc. reflexivity.
Qed.

End Properties.

(** C7. For each of the four operators, the request [call_api] sends
    carries, as the text of its first part, an instruction that reads
    "Calculate", the first operand as [str] prints it, the symbol of the
    operator, the second operand, "and return only the numerical result";
    the symbols are [+ - * /].  On the reference floats, with [6], [3] and
    the Divide button, the instruction is
    "Calculate 6.0 / 3.0 and return only the numerical result". *)
Theorem instruction_embeds_operands :
  (forall (P : Platform) (o : operator) (n1 n2 : float) (c : CalculatorAPI) (w : world),
     let text := instruction n1 n2 (symbol o) in
     outbox (snd (snd (call_api n1 n2 (symbol o) (c, w))))
     = outbox w ++ [mk_request (base_url c)
                      [(lit "Content-Type", lit "application/json");
                       (lit "x-goog-api-key", api_key c)]
                      (PDict [(lit "contents",
                         PList [PDict [(lit "parts",
                           PList [PDict [(lit "text", PStr text)]])]])])] /\
     text = lit "Calculate " ++ float_str n1 ++ lit " " ++ symbol o ++ lit " "
            ++ float_str n2 ++ lit " and return only the numerical result" /\
     contains (float_str n1) text /\ contains (symbol o) text /\
     contains (float_str n2) text /\
     contains (lit "return only the numerical result") text /\
     symbol o = match o with
                | add => lit "+"
                | subtract => lit "-"
                | multiply => lit "*"
                | divide => lit "/"
                end) /\
  (float_of_str (Platform := Reference.whole_floats) (lit "6") = Some 6 /\
   float_of_str (Platform := Reference.whole_floats) (lit "3") = Some 3 /\
   instruction (P := Reference.whole_floats) 6 3 (symbol divide)
   = lit "Calculate 6.0 / 3.0 and return only the numerical result" /\
   contains (lit "6") (instruction (P := Reference.whole_floats) 6 3 (symbol divide)) /\
   contains (lit "/") (instruction (P := Reference.whole_floats) 6 3 (symbol divide)) /\
   contains (lit "3") (instruction (P := Reference.whole_floats) 6 3 (symbol divide))).
Proof.
  split.
  - intros P o n1 n2 c w text.
    destruct (instruction_contains n1 n2 (symbol o)) as (H1 & H2 & H3 & H4).
    repeat apply conj; try assumption.
    + by rewrite call_api_state.
    + reflexivity.
    + by destruct o.
  - repeat apply conj; try (by vm_compute).
    + by exists (lit "Calculate "), (lit ".0 / 3.0 and return only the numerical result").
    + by exists (lit "Calculate 6.0 "), (lit " 3.0 and return only the numerical result").
    + by exists (lit "Calculate 6.0 / "), (lit ".0 and return only the numerical result").
Qed.

(** * Further properties *)

(** Settles the test of [path_exists]. *)
Ltac settle :=
  first [ rewrite present by eauto
        | rewrite absent by done
        | rewrite bool_decide_eq_true_2 by eauto
        | rewrite bool_decide_eq_false_2 by (by intros [? ?]) ].

Section CredentialStore.
Context {P : Platform} {F : FernetSuite}.

(** What [_get_or_create_encryption_key] computes. *)
Lemma get_or_create_run (w : world) :
  _get_or_create_encryption_key w =
  match disk w !! key_path with
  | Some f =>
      if readable f then (Returns (data f), w)
      else (Raises (builtin_error OSError (PermissionDenied key_path)), w)
  | None =>
      let w1 := mk_world (disk w) (home_writable w) (N.succ (entropy w)) (wire w)
                         (outbox w) (dialogs w) in
      if home_writable w
      then (Returns (generate_key (entropy w)),
            with_disk (<[key_path := mk_file (generate_key (entropy w)) true true]>
                         (disk w)) w1)
      else (Raises (builtin_error OSError (PermissionDenied key_path)), w1)
  end.
Proof.
  run. destruct (disk w !! key_path) as [f|] eqn:E.
  - settle. step. rewrite E. by destruct (readable f).
  - settle. step. rewrite E. by destruct (home_writable w).
Qed.

(** A construction that returned is repeated by the next one: same
    manager, nothing changed. *)
Lemma init_again (w w1 : world) (m : APIKeyManager) :
  APIKeyManager_init w = (Returns m, w1) -> APIKeyManager_init w1 = (Returns m, w1).
Proof.
  unfold APIKeyManager_init, Fernet_init, bind, ret, raise.
  rewrite !get_or_create_run.
  destruct (disk w !! key_path) as [f|] eqn:E.
  - destruct (readable f) eqn:Hr; [|discriminate].
    destruct (key_ok (data f)) eqn:Hk; [|discriminate]. intros [= <- <-].
    by rewrite E, Hr, Hk.
  - cbn zeta. destruct (home_writable w); [|discriminate].
    destruct (key_ok (generate_key (entropy w))) eqn:Hk; [|discriminate].
    intros [= <- <-]. step. rewrite lookup_insert_eq. step. by rewrite Hk.
Qed.

Lemma init_disk (w w1 : world) (m : APIKeyManager) :
  APIKeyManager_init w = (Returns m, w1) ->
  (data <$> disk w1 !! key_path) = Some (key_encryption_key m) /\
  (forall p, p <> key_path -> disk w1 !! p = disk w !! p) /\
  home_writable w1 = home_writable w /\ wire w1 = wire w /\
  outbox w1 = outbox w /\ dialogs w1 = dialogs w.
Proof.
  unfold APIKeyManager_init, Fernet_init, bind, ret, raise.
  rewrite get_or_create_run.
  destruct (disk w !! key_path) as [f|] eqn:E.
  - destruct (readable f) eqn:Hr; [|discriminate].
    destruct (key_ok (data f)) eqn:Hk; [|discriminate]. intros [= <- <-].
    step. by rewrite E.
  - cbn zeta. destruct (home_writable w) eqn:Hw; [|discriminate].
    destruct (key_ok (generate_key (entropy w))) eqn:Hk; [|discriminate].
    intros [= <- <-]. step. rewrite lookup_insert_eq. repeat apply conj; try done.
    intros p Hp. by rewrite lookup_insert_ne.
Qed.

(** X1. A manager that [__init__] returned has the credential path and a
    key its cipher accepts; that key is what the key file now holds; no
    other file was touched; and constructing again gives the same manager
    and changes nothing. *)
Theorem constructed_manager (w w1 : world) (m : APIKeyManager) :
  APIKeyManager_init w = (Returns m, w1) ->
  key_file m = credential_path /\
  key_ok (secret (fernet m)) = true /\
  secret (fernet m) = key_encryption_key m /\
  (data <$> disk w1 !! key_path) = Some (key_encryption_key m) /\
  (forall p, p <> key_path -> disk w1 !! p = disk w !! p) /\
  APIKeyManager_init w1 = (Returns m, w1).
Proof.
  intros H.
  destruct (APIKeyManager_init_run _ _ _ H) as (Hp & Hk & He).
  destruct (init_disk _ _ _ H) as (Hd & Hf & _).
  repeat apply conj; try done. by eapply init_again.
Qed.

(** X2. A key file that can be read but holds no key the cipher accepts
    makes [__init__] raise [ValueError]; nothing is changed, the file is
    not replaced. *)
Theorem bad_key_file_stops_construction (w : world) (f : file) :
  disk w !! key_path = Some f -> readable f = true -> key_ok (data f) = false ->
  APIKeyManager_init w = (Raises (builtin_error ValueError BadFernetKey), w).
Proof.
  intros E Hr Hk. unfold APIKeyManager_init, Fernet_init, bind, ret, raise.
  by rewrite get_or_create_run, E, Hr, Hk.
Qed.

(** What [save_api_key] computes. *)
Lemma save_api_key_cases (m : APIKeyManager) (w : world) (s : str) :
  save_api_key s (m, w) =
  match utf8_encode s with
  | None => (Raises (builtin_error UnicodeEncodeError (CannotEncode s)), (m, w))
  | Some plain =>
      let w1 := mk_world (disk w) (home_writable w) (N.succ (entropy w)) (wire w)
                         (outbox w) (dialogs w) in
      let token := encrypt (secret (fernet m)) (entropy w) plain in
      match disk w !! key_file m with
      | Some f =>
          if writable f
          then (Returns tt,
                (m, with_disk (<[key_file m := mk_file token (readable f) true]>
                                 (disk w)) w1))
          else (Raises (builtin_error OSError (PermissionDenied (key_file m))),
                (m, w1))
      | None =>
          if home_writable w
          then (Returns tt,
                (m, with_disk (<[key_file m := mk_file token true true]> (disk w)) w1))
          else (Raises (builtin_error OSError (PermissionDenied (key_file m))),
                (m, w1))
      end
  end.
Proof.
  run. destruct (utf8_encode s) as [plain|]; [|done]. step.
  destruct (disk w !! key_file m) as [f|].
  - by destruct (writable f).
  - by destruct (home_writable w).
Qed.

(** X3. What one manager saved, a manager constructed afterwards loads:
    the dialog's manager and the application's agree on the key. *)
Theorem saved_by_one_loaded_by_another `{!FernetLaws F}
    (w0 w1 w2 w3 : world) (m1 m1' m2 : APIKeyManager) (s : str) :
  APIKeyManager_init w0 = (Returns m1, w1) ->
  (forall f, disk w1 !! credential_path = Some f -> readable f = true) ->
  save_api_key s (m1, w1) = (Returns tt, (m1', w2)) ->
  APIKeyManager_init w2 = (Returns m2, w3) ->
  load_api_key (m2, w3) = (Returns (Some s), (m2, w3)).
Proof.
  intros H1 Hr Hs H2.
  destruct (APIKeyManager_init_run _ _ _ H1) as (Hp & Hk & He).
  pose proof (init_again _ _ _ H1) as H1'.
  apply save_api_key_run in Hs as (plain & Henc & -> & Hd).
  rewrite Hp in Hd.
  assert (Hkey : disk w2 !! key_path = disk w1 !! key_path).
  { rewrite Hd. by rewrite lookup_insert_ne. }
  assert (m2 = m1 /\ w3 = w2) as [-> ->].
  { revert H1' H2. unfold APIKeyManager_init, Fernet_init, bind, ret, raise.
    rewrite !get_or_create_run, Hkey.
    destruct (disk w1 !! key_path) as [f|] eqn:E.
    - destruct (readable f); [|discriminate].
      destruct (key_ok (data f)); [|discriminate]. by intros [= <-] [= <- <-].
    - pose proof (init_disk _ _ _ H1) as (Hd1 & _). rewrite E in Hd1. done. }
  rewrite load_api_key_run, Hp, Hd, lookup_insert_eq. step.
  assert (default true (readable <$> disk w1 !! credential_path) = true) as ->.
  { destruct (disk w1 !! credential_path) eqn:E; [cbn; eauto | done]. }
  rewrite decrypt_encrypt by eauto using utf8_encode_bytes.
  cbn [mbind option_bind]. by rewrite (utf8_decode_encode _ _ Henc).
Qed.

(** X4. A key that has no UTF-8 encoding is refused before any file is
    opened: [save_api_key] raises [UnicodeEncodeError] and leaves the
    manager and the world as they were, so what [load_api_key] returned
    before it returns after.  Whatever makes [save_api_key] raise, the
    manager is as it was and the error is that one, for a key that has no
    encoding, or [OSError], for a key that has one. *)
Theorem unencodable_key_is_refused (m : APIKeyManager) (w : world) (s : str) :
  (utf8_encode s = None ->
     save_api_key s (m, w)
     = (Raises (builtin_error UnicodeEncodeError (CannotEncode s)), (m, w)) /\
     load_api_key (snd (save_api_key s (m, w))) = load_api_key (m, w)) /\
  (forall m' w' e, save_api_key s (m, w) = (Raises e, (m', w')) ->
     m' = m /\
     (exn_cls e = UnicodeEncodeError /\ utf8_encode s = None /\ w' = w \/
      exn_cls e = OSError /\ is_Some (utf8_encode s))).
Proof.
  rewrite save_api_key_cases. split.
  - by intros ->.
  - intros m' w' e. destruct (utf8_encode s) as [plain|].
    + cbn zeta. destruct (disk w !! key_file m) as [f|];
        [destruct (writable f) | destruct (home_writable w)]; try discriminate;
        intros [= <- <- <-]; eauto.
    + intros [= <- <- <-]. eauto 6.
Qed.

(** X5. A second [save_api_key] replaces the first: after saving [s1] and
    then [s2], [load_api_key] returns [s2]. *)
Theorem second_save_replaces_first `{!FernetLaws F}
    (m m1 m2 : APIKeyManager) (w w1 w2 : world) (s1 s2 : str) :
  key_ok (secret (fernet m)) = true ->
  (forall f, disk w !! key_file m = Some f -> readable f = true) ->
  save_api_key s1 (m, w) = (Returns tt, (m1, w1)) ->
  save_api_key s2 (m1, w1) = (Returns tt, (m2, w2)) ->
  load_api_key (m2, w2) = (Returns (Some s2), (m2, w2)).
Proof.
  intros Hk Hr H1 H2.
  apply save_api_key_run in H1 as (p1 & _ & -> & Hd1).
  apply save_api_key_run in H2 as (p2 & He & -> & Hd2).
  rewrite Hd1, lookup_insert_eq in Hd2. cbn in Hd2.
  assert (default true (readable <$> disk w !! key_file m) = true) as Hrd.
  { destruct (disk w !! key_file m) eqn:E; [cbn; eauto | done]. }
  rewrite Hrd in Hd2.
  rewrite load_api_key_run, Hd2, lookup_insert_eq. step.
  rewrite decrypt_encrypt by eauto using utf8_encode_bytes.
  cbn [mbind option_bind]. by rewrite (utf8_decode_encode _ _ He).
Qed.

(** What [delete_api_key] computes. *)
Lemma delete_api_key_cases (m : APIKeyManager) (w : world) :
  delete_api_key (m, w) =
  match disk w !! key_file m with
  | Some _ =>
      if home_writable w
      then (Returns tt, (m, with_disk (delete (key_file m) (disk w)) w))
      else (Raises (builtin_error OSError (PermissionDenied (key_file m))), (m, w))
  | None => (Returns tt, (m, w))
  end.
Proof.
  run. destruct (disk w !! key_file m) as [f|] eqn:E.
  - settle. step. rewrite E. by destruct (home_writable w).
  - by settle.
Qed.

(** X6. After a [delete_api_key] that returned there is no credential:
    [load_api_key] returns [None], whatever was saved before, a second
    [delete_api_key] changes nothing, and the other files are as they
    were. *)
Theorem deleted_is_gone (m m' : APIKeyManager) (w w' : world) :
  delete_api_key (m, w) = (Returns tt, (m', w')) ->
  m' = m /\
  load_api_key (m', w') = (Returns None, (m', w')) /\
  delete_api_key (m', w') = (Returns tt, (m', w')) /\
  (forall p, p <> key_file m -> disk w' !! p = disk w !! p).
Proof.
  rewrite delete_api_key_cases.
  destruct (disk w !! key_file m) as [f|] eqn:E.
  - destruct (home_writable w); [|discriminate]. intros [= <- <-].
    rewrite load_api_key_run, delete_api_key_cases. step.
    rewrite lookup_delete_eq. repeat apply conj; try done.
    intros p Hp. by rewrite lookup_delete_ne.
  - intros [= <- <-]. rewrite load_api_key_run, delete_api_key_cases, E. done.
Qed.

(** X7. [delete_api_key] raises only for a credential file that is there
    in a directory that does not let go of it, and then [OSError]; the
    file stays, and so does what [load_api_key] returns. *)
Theorem failed_delete_keeps_credential (m m' : APIKeyManager) (w w' : world) (e : exn) :
  delete_api_key (m, w) = (Raises e, (m', w')) ->
  exn_cls e = OSError /\ m' = m /\ w' = w /\
  is_Some (disk w !! key_file m) /\ home_writable w = false.
Proof.
  rewrite delete_api_key_cases.
  destruct (disk w !! key_file m) as [f|] eqn:E; [|discriminate].
  destruct (home_writable w); [discriminate|]. intros [= <- <- <-]. eauto.
Qed.

End CredentialStore.

(** ** White space *)

Lemma lstrip_idem s : lstrip (lstrip s) = lstrip s.
Proof.
  induction s as [|c s IH]; [done|]. cbn [lstrip].
  destruct (is_space c) eqn:E; [done|]. cbn [lstrip]. by rewrite E.
Qed.

Lemma lstrip_middle l c t : is_space c = false -> lstrip (l ++ c :: t) = lstrip l ++ c :: t.
Proof.
  intros Hc. induction l as [|x l IH]; cbn [lstrip app]; [by rewrite Hc|].
  by destruct (is_space x).
Qed.

Lemma rstrip_idem s : rstrip (rstrip s) = rstrip s.
Proof. unfold rstrip. by rewrite rev_involutive, lstrip_idem. Qed.

Lemma lstrip_rstrip u : lstrip u = u -> lstrip (rstrip u) = rstrip u.
Proof.
  destruct u as [|c u]; [done|]. cbn [lstrip].
  destruct (is_space c) eqn:E.
  - intros H. exfalso. assert (Hl : (length (lstrip u) <= length u)%nat).
    { clear. induction u as [|x u IH]; cbn [lstrip]; [done|].
      destruct (is_space x); cbn [length]; lia. }
    rewrite H in Hl. cbn [length] in Hl. lia.
  - intros _. unfold rstrip. cbn [rev]. rewrite lstrip_middle by done.
    rewrite rev_app_distr. cbn [rev app lstrip]. by rewrite E.
Qed.

(** Stripping what is stripped changes nothing. *)
Lemma strip_idem s : strip (strip s) = strip s.
Proof.
  unfold strip. rewrite (lstrip_rstrip (lstrip s)) by apply lstrip_idem.
  apply rstrip_idem.
Qed.

Lemma truthy_Some (k : str) : truthy (Some k) = true <-> k <> [].
Proof. by destruct k. Qed.

(** ** The dialog *)

Ltac step2 :=
  cbn [fst snd dialog_api_key dialog_key_manager api_key_var status_text
       status_foreground closing destroyed set_dialog_api_key set_dialog_key_manager
       set_api_key_var status_config after_destroy destroy negb andb] in *; step.

Section Dialog.
Context {P : Platform} {F : FernetSuite}.

(** What [test_api_key] computes: it never raises, sends one request and
    answers whether the response has status 200. *)
Lemma test_api_key_run (key : str) (d : APIKeyDialog) (w : world) :
  test_api_key key (d, w) = (Returns (accepts w), (d, probed key w)).
Proof.
  unfold test_api_key, accepts, probed, probe_request. run.
  by destruct (wire w) as [|[r|e] rest].
Qed.

(** What [test_and_save_key] computes. *)
Lemma test_and_save_key_run (d : APIKeyDialog) (w : world) :
  test_and_save_key (d, w) =
  let key := strip (api_key_var d) in
  if negb (truthy (Some key)) then
    (Returns tt, (status_config (lit "Please enter an API key") (lit "red") d, w))
  else
    let d1 := status_config (lit "Testing API key...") (lit "black") d in
    if accepts w then
      match save_api_key key (dialog_key_manager d, probed key w) with
      | (Returns _, (m, w2)) =>
          (Returns tt,
           (after_destroy
              (status_config (lit "API key validated and saved successfully!")
                 (lit "green")
                 (set_dialog_api_key (Some key) (set_dialog_key_manager m d1))),
            w2))
      | (Raises e, (m, w2)) => (Raises e, (set_dialog_key_manager m d1, w2))
      end
    else
      (Returns tt,
       (status_config (lit "Invalid API key. Please check and try again.")
          (lit "red") d1, probed key w)).
Proof.
  unfold test_and_save_key. unfold bind at 1. unfold attr at 1. cbn [fst].
  cbn zeta. destruct (negb (truthy (Some (strip (api_key_var d))))); [done|].
  unfold bind at 1. unfold update at 1. cbn [fst snd].
  unfold bind at 1. rewrite test_api_key_run.
  destruct (accepts w); [|done].
  unfold bind at 1. unfold on at 1. step2.
  destruct (save_api_key _ _) as [[[]|e] [m w2]]; done.
Qed.

End Dialog.

Section DialogProperties.
Context {P : Platform} {F : FernetSuite}.

(** X8. [test_api_key] never raises.  It sends one request, to the
    endpoint, with the key in the [x-goog-api-key] header and the
    instruction "Return only the number 1"; it answers [True] exactly when
    a response came back with status 200; the dialog, the files and the
    message boxes are as they were. *)
Theorem test_api_key_answer (key : str) (d : APIKeyDialog) (w : world) :
  exists b w',
    test_api_key key (d, w) = (Returns b, (d, w')) /\
    outbox w' = outbox w ++ [probe_request key] /\
    In (lit "x-goog-api-key", key) (headers (probe_request key)) /\
    disk w' = disk w /\ dialogs w' = dialogs w /\
    (b = true <->
     exists r rest, wire w = Returns r :: rest /\ status_code r = 200).
Proof.
  exists (accepts w), (probed key w). rewrite test_api_key_run.
  repeat apply conj; try done.
  - cbn. auto.
  - unfold accepts. destruct (wire w) as [|[r|e] rest]; try done.
    intros H. exists r, rest. split; [done|]. by apply Z.eqb_eq.
  - intros (r & rest & Hw & Hs). unfold accepts. rewrite Hw. by apply Z.eqb_eq.
Qed.

(** X9. With nothing in the entry but white space, [test_and_save_key]
    asks for a key in red and does nothing else: no request, no file
    written, no key handed back. *)
Theorem blank_entry_is_refused (d : APIKeyDialog) (w : world) :
  strip (api_key_var d) = [] ->
  test_and_save_key (d, w) =
  (Returns tt, (status_config (lit "Please enter an API key") (lit "red") d, w)).
Proof. intros H. by rewrite test_and_save_key_run, H. Qed.

(** X10. A key the remote end does not answer with status 200 is not
    saved: [test_and_save_key] returns with every file as it was, the key
    to hand back and the pending close as they were, and the red line
    "Invalid API key. Please check and try again.".  One request went
    out, with the key stripped of the white space around it. *)
Theorem rejected_key_is_not_saved (d : APIKeyDialog) (w : world) :
  strip (api_key_var d) <> [] ->
  accepts w = false ->
  exists d' w',
    test_and_save_key (d, w) = (Returns tt, (d', w')) /\
    disk w' = disk w /\
    outbox w' = outbox w ++ [probe_request (strip (api_key_var d))] /\
    dialog_api_key d' = dialog_api_key d /\
    closing d' = closing d /\ destroyed d' = destroyed d /\
    status_text d' = lit "Invalid API key. Please check and try again." /\
    status_foreground d' = Some (lit "red").
Proof.
  intros Hk Ha. rewrite test_and_save_key_run. cbn zeta.
  apply truthy_Some in Hk. rewrite Hk, Ha. cbn [negb].
  by eexists _, _.
Qed.

(** X11. A key the remote end answers with status 200 is saved and handed
    back: when [save_api_key] can write, [test_and_save_key] returns with
    the stripped key as the key to hand back, the close pending, and the
    green line; and the dialog's manager then loads that key. *)
Theorem accepted_key_is_saved `{!FernetLaws F} (d : APIKeyDialog) (w : world) :
  let key := strip (api_key_var d) in
  let m := dialog_key_manager d in
  key <> [] -> accepts w = true ->
  key_ok (secret (fernet m)) = true ->
  (forall f, disk w !! key_file m = Some f -> readable f = true) ->
  is_Some (utf8_encode key) -> ~ unwritable (key_file m) w ->
  exists d' w',
    test_and_save_key (d, w) = (Returns tt, (d', w')) /\
    dialog_api_key d' = Some key /\ closing d' = true /\
    destroyed d' = destroyed d /\ dialog_key_manager d' = m /\
    status_text d' = lit "API key validated and saved successfully!" /\
    status_foreground d' = Some (lit "green") /\
    load_api_key (m, w') = (Returns (Some key), (m, w')).
Proof.
  intros key m Hk Ha Hok Hr He Hw. rewrite test_and_save_key_run. cbn zeta.
  fold key m. apply truthy_Some in Hk. rewrite Hk, Ha. cbn [negb].
  destruct (save_api_key_returns m (probed key w) key He) as [w2 Hs]; [done|].
  rewrite Hs. eexists _, _. repeat apply conj; try reflexivity.
  apply save_api_key_run in Hs as (plain & Hp & _ & Hd). unfold probed in Hd. step.
  assert (default true (readable <$> disk w !! key_file m) = true) as Hrd.
  { destruct (disk w !! key_file m) eqn:E; [cbn; eauto | done]. }
  rewrite Hrd in Hd.
  rewrite load_api_key_run, Hd, lookup_insert_eq. step.
  rewrite decrypt_encrypt by eauto using utf8_encode_bytes.
  cbn [mbind option_bind]. by rewrite (utf8_decode_encode _ _ Hp).
Qed.

(** X12. When the key was accepted but [save_api_key] raises,
    [test_and_save_key] lets the exception through: no key is handed back,
    no close is pending, the line still reads "Testing API key...", and
    no file but the credential file has changed. *)
Theorem accepted_but_not_saved (d d' : APIKeyDialog) (w w' : world) (e : exn) :
  test_and_save_key (d, w) = (Raises e, (d', w')) ->
  accepts w = true /\
  fst (save_api_key (strip (api_key_var d)) (dialog_key_manager d,
         probed (strip (api_key_var d)) w)) = Raises e /\
  dialog_api_key d' = dialog_api_key d /\ closing d' = closing d /\
  destroyed d' = destroyed d /\
  status_text d' = lit "Testing API key..." /\
  (forall p, p <> key_file (dialog_key_manager d) -> disk w' !! p = disk w !! p).
Proof.
  rewrite test_and_save_key_run. cbn zeta.
  destruct (negb _); [discriminate|].
  destruct (accepts w); [|discriminate].
  destruct (save_api_key _ _) as [[[]|e0] [m w2]] eqn:Hs; [discriminate|].
  intros [= <- <- <-].
  rewrite save_api_key_cases in Hs.
  destruct (utf8_encode _) as [plain|].
  - cbn zeta in Hs. unfold probed in *. step.
    destruct (disk w !! key_file (dialog_key_manager d)) as [f|];
      [destruct (writable f) | destruct (home_writable w)]; try discriminate;
      by injection Hs as <- <- <-.
  - unfold probed in *. by injection Hs as <- <- <-.
Qed.

End DialogProperties.

Section Sessions.
Context {P : Platform} {F : FernetSuite}.

Lemma load_same_disk (m : APIKeyManager) (w w' : world) :
  disk w' !! key_file m = disk w !! key_file m ->
  fst (load_api_key (m, w')) = fst (load_api_key (m, w)).
Proof. intros H. by rewrite !load_api_key_run, H. Qed.

Lemma wire_tail_In {A} (x : A) (l : list A) : In x (tail l) -> In x l.
Proof. destruct l; [done|]. by right. Qed.

Lemma no_200_rejects (w : world) :
  (forall r, In (Returns r) (wire w) -> status_code r <> 200) -> accepts w = false.
Proof.
  intros H. unfold accepts. destruct (wire w) as [|[r|e] rest]; try done.
  apply Z.eqb_neq, H. by left.
Qed.

(** One callback that returned keeps what a quiet session keeps: the
    manager and its key, a credential file that can be read, the files
    other than the credential file, the message boxes; a key to hand back
    is the stored one; and with no key to hand back the credential file is
    as it was. *)
Lemma handle_keeps `{!FernetLaws F} (a : action) (d d' : APIKeyDialog)
    (w w' : world) (old : option file) :
  handle a (d, w) = (Returns tt, (d', w')) ->
  key_ok (secret (fernet (dialog_key_manager d))) = true ->
  (forall f, disk w !! key_file (dialog_key_manager d) = Some f -> readable f = true) ->
  hands_back_stored d w ->
  (dialog_api_key d = None -> disk w !! key_file (dialog_key_manager d) = old) ->
  dialog_key_manager d' = dialog_key_manager d /\
  (forall f, disk w' !! key_file (dialog_key_manager d) = Some f -> readable f = true) /\
  hands_back_stored d' w' /\
  (dialog_api_key d' = None -> disk w' !! key_file (dialog_key_manager d) = old) /\
  (forall p, p <> key_file (dialog_key_manager d) -> disk w' !! p = disk w !! p) /\
  home_writable w' = home_writable w /\ dialogs w' = dialogs w.
Proof.
  remember (Returns tt : outcome unit) as r eqn:Hret.
  intros H Hk Hr Hs Ho. destruct a; cbn [handle] in H.
  1, 3, 4: unfold update in H; cbn [fst snd] in H; injection H as _ <- <-;
    try destruct (closing d); by repeat apply conj.
  rewrite test_and_save_key_run in H. cbn zeta in H.
  destruct (negb (truthy (Some (strip (api_key_var d))))) eqn:Ht.
  { injection H as _ <- <-. by repeat apply conj. }
  apply negb_false_iff, truthy_Some in Ht.
  destruct (accepts w).
  2: { injection H as _ <- <-. unfold probed. step2. repeat apply conj; try done.
       intros k Hk'. destruct (Hs k Hk') as (? & ? & Hl). repeat apply conj; try done.
       by rewrite <- Hl, !load_api_key_run. }
  rewrite save_api_key_cases in H. unfold probed in H. step2.
  destruct (utf8_encode (strip (api_key_var d))) as [plain|] eqn:He.
  2: { injection H as _ <- <-. step2. repeat apply conj; try done.
       intros k Hk'. destruct (Hs k Hk') as (? & ? & Hl). repeat apply conj; try done.
       by rewrite <- Hl, !load_api_key_run. }
  cbn zeta in H.
  set (m := dialog_key_manager d) in *.
  assert (Hfail : forall e : exn,
    (Raises e : outcome unit,
     (set_dialog_key_manager m
        (status_config (lit "Testing API key...") (lit "black") d),
      mk_world (disk w) (home_writable w) (N.succ (entropy w)) (tail (wire w))
        (outbox w ++ [probe_request (strip (api_key_var d))]) (dialogs w)))
    = (r, (d', w')) ->
    dialog_key_manager d' = m /\
    (forall f, disk w' !! key_file m = Some f -> readable f = true) /\
    hands_back_stored d' w' /\
    (dialog_api_key d' = None -> disk w' !! key_file m = old) /\
    (forall p, p <> key_file m -> disk w' !! p = disk w !! p) /\
    home_writable w' = home_writable w /\ dialogs w' = dialogs w).
  { intros e [= Hraised _ _]. congruence. }
  assert (Hdone : forall rd : bool,
    (forall f, disk w !! key_file m = Some f -> readable f = rd) ->
    (disk w !! key_file m = None -> rd = true) ->
    (Returns tt,
     (after_destroy
        (status_config (lit "API key validated and saved successfully!") (lit "green")
           (set_dialog_api_key (Some (strip (api_key_var d)))
              (set_dialog_key_manager m
                 (status_config (lit "Testing API key...") (lit "black") d)))),
      with_disk
        (<[key_file m :=
             mk_file (encrypt (secret (fernet m)) (entropy w) plain) rd true]> (disk w))
        (mk_world (disk w) (home_writable w) (N.succ (entropy w)) (tail (wire w))
           (outbox w ++ [probe_request (strip (api_key_var d))]) (dialogs w))))
    = (r, (d', w')) ->
    dialog_key_manager d' = m /\
    (forall f, disk w' !! key_file m = Some f -> readable f = true) /\
    hands_back_stored d' w' /\
    (dialog_api_key d' = None -> disk w' !! key_file m = old) /\
    (forall p, p <> key_file m -> disk w' !! p = disk w !! p) /\
    home_writable w' = home_writable w /\ dialogs w' = dialogs w).
  { intros rd Hrd1 Hrd2 [= _ <- <-]. step2.
    assert (rd = true) as ->.
    { destruct (disk w !! key_file m) as [f|] eqn:E; [|by apply Hrd2].
      rewrite <- (Hrd1 f eq_refl). by apply Hr. }
    repeat apply conj; try done.
    - rewrite lookup_insert_eq. by intros f [= <-].
    - intros k [= <-]. repeat apply conj; [done | apply strip_idem |].
      rewrite load_api_key_run. step2. rewrite lookup_insert_eq. step.
      rewrite decrypt_encrypt by eauto using utf8_encode_bytes.
      cbn [mbind option_bind fst]. by rewrite (utf8_decode_encode _ _ He).
    - intros p Hp. by rewrite lookup_insert_ne. }
  destruct (disk w !! key_file m) as [f|] eqn:E.
  - destruct (writable f); [|by eapply Hfail].
    apply (Hdone (readable f)); [by intros ? [= <-] | done | exact H].
  - destruct (home_writable w); [|by eapply Hfail].
    apply (Hdone true); [done | done | exact H].
Qed.

(** A quiet session keeps what each of its callbacks keeps. *)
Lemma wait_window_keeps `{!FernetLaws F} (session : list action) :
  forall (d : APIKeyDialog) (w : world) (old : option file),
  key_ok (secret (fernet (dialog_key_manager d))) = true ->
  (forall f, disk w !! key_file (dialog_key_manager d) = Some f -> readable f = true) ->
  hands_back_stored d w ->
  (dialog_api_key d = None -> disk w !! key_file (dialog_key_manager d) = old) ->
  quiet session (d, w) = true ->
  exists d' w',
    wait_window session (d, w) = (Returns tt, (d', w')) /\
    dialog_key_manager d' = dialog_key_manager d /\
    (forall f, disk w' !! key_file (dialog_key_manager d) = Some f -> readable f = true) /\
    hands_back_stored d' w' /\
    (dialog_api_key d' = None -> disk w' !! key_file (dialog_key_manager d) = old) /\
    (forall p, p <> key_file (dialog_key_manager d) -> disk w' !! p = disk w !! p) /\
    home_writable w' = home_writable w /\ dialogs w' = dialogs w.
Proof.
  induction session as [|a rest IH]; intros d w old Hk Hr Hs Ho Hq;
    cbn [wait_window quiet fst] in *.
  - destruct (destroyed d) eqn:Hd; [by eexists _, _|].
    unfold update. cbn [fst snd]. by eexists _, _.
  - destruct (destroyed d) eqn:Hd; [by eexists _, _|].
    destruct (handle a (d, w)) as [[[]|e] [d1 w1]] eqn:Ha; [|discriminate].
    destruct (handle_keeps _ _ _ _ _ old Ha Hk Hr Hs Ho)
      as (Hm & Hr1 & Hs1 & Ho1 & Hf1 & Hh1 & Hb1).
    rewrite <- Hm in Hk, Hr1, Ho1.
    destruct (IH d1 w1 old Hk Hr1 Hs1 Ho1 Hq)
      as (d' & w' & Hw & Hm' & Hr' & Hs' & Ho' & Hf' & Hh' & Hb').
    rewrite Hm in *.
    exists d', w'. repeat apply conj; try done; try congruence.
    intros p Hp. rewrite Hf' by done. by apply Hf1.
Qed.

End Sessions.

Section Startup.
Context {P : Platform} {F : FernetSuite}.

Lemma APIKeyDialog_init_run (w w1 : world) (d : APIKeyDialog) :
  APIKeyDialog_init w = (Returns d, w1) ->
  APIKeyManager_init w = (Returns (dialog_key_manager d), w1) /\
  d = mk_APIKeyDialog None (dialog_key_manager d) [] [] None false false.
Proof.
  unfold APIKeyDialog_init, bind, ret.
  destruct (APIKeyManager_init w) as [[m|e] w2]; [|discriminate].
  by intros [= <- <-].
Qed.

(** X13. After a session of the dialog in which no callback raised, a
    key the dialog hands back is not empty, has no white space around it,
    and is the key its manager loads; with no key to hand back the
    credential file is as it was.  No file but the credential file has
    changed, and no message box was shown. *)
Theorem session_hands_back_stored_key `{!FernetLaws F}
    (session : list action) (w0 w : world) (d : APIKeyDialog) :
  APIKeyDialog_init w0 = (Returns d, w) ->
  (forall f, disk w !! credential_path = Some f -> readable f = true) ->
  quiet session (d, w) = true ->
  forall r d' w', wait_window session (d, w) = (r, (d', w')) ->
    (forall k, dialog_api_key d' = Some k ->
       k <> [] /\ strip k = k /\
       load_api_key (dialog_key_manager d, w')
       = (Returns (Some k), (dialog_key_manager d, w'))) /\
    (dialog_api_key d' = None ->
       disk w' !! credential_path = disk w !! credential_path) /\
    (forall p, p <> credential_path -> disk w' !! p = disk w !! p) /\
    dialogs w' = dialogs w.
Proof.
  intros Hi Hr Hq r d2 w2 Hrun. apply APIKeyDialog_init_run in Hi as [Hm Hd].
  destruct (APIKeyManager_init_run _ _ _ Hm) as (Hp & Hk & _).
  rewrite <- Hp in Hr.
  destruct (wait_window_keeps session d w (disk w !! credential_path) Hk Hr)
    as (d' & w' & Hw & Hm' & _ & Hs & Ho & Hf & _ & Hb).
  { intros k Hk'. rewrite Hd in Hk'. discriminate. }
  { intros _. by rewrite Hp. }
  { exact Hq. }
  rewrite Hw in Hrun. injection Hrun as _ <- <-.
  rewrite Hp in *. repeat apply conj; try done.
  intros k Hk'. destruct (Hs k Hk') as (H1 & H2 & H3).
  repeat apply conj; try done. rewrite Hm' in H3.
  rewrite load_api_key_run in *. cbn [fst] in H3. by rewrite H3.
Qed.

(** X14. When no answer on the wire has status 200, a session stores
    nothing and hands back nothing new, whatever the user types and
    presses: every file is as it was. *)
Theorem no_200_nothing_stored (session : list action) :
  forall (d : APIKeyDialog) (w : world),
  (forall r, In (Returns r) (wire w) -> status_code r <> 200) ->
  exists d' w',
    wait_window session (d, w) = (Returns tt, (d', w')) /\
    disk w' = disk w /\ dialog_api_key d' = dialog_api_key d /\
    dialog_key_manager d' = dialog_key_manager d.
Proof.
  induction session as [|a rest IH]; intros d w Hw; cbn [wait_window fst].
  - destruct (destroyed d); unfold update; by eexists _, _.
  - destruct (destroyed d); [by eexists _, _|].
    assert (exists r d1 w1, handle a (d, w) = (r, (d1, w1)) /\
              disk w1 = disk w /\ dialog_api_key d1 = dialog_api_key d /\
              dialog_key_manager d1 = dialog_key_manager d /\
              forall x, In x (wire w1) -> In x (wire w))
      as (r & d1 & w1 & Ha & Hd1 & Hk1 & Hm1 & Hw1).
    { destruct a; cbn [handle]; unfold update; cbn [fst snd];
        try (eexists _, _, _; repeat apply conj; try reflexivity; try done;
             by destruct (closing d)).
      rewrite test_and_save_key_run. cbn zeta.
      destruct (negb _); [by eexists _, _, _|].
      rewrite (no_200_rejects w Hw). eexists _, _, _.
      repeat apply conj; try reflexivity.
      unfold probed. step. intros x. apply wire_tail_In. }
    rewrite Ha. destruct (IH d1 w1) as (d' & w' & H & Hd' & Hk' & Hm').
    { intros r0 Hr0. apply Hw, Hw1, Hr0. }
    exists d', w'. repeat apply conj; congruence.
Qed.

Lemma stored_key_run (session : list action) (m : APIKeyManager)
    (w : world) (k : str) :
  fst (load_api_key (m, w)) = Returns (Some k) -> k <> [] ->
  setup_api session (m, w)
  = (Returns (Started (create_main_ui m (CalculatorAPI_init k))), (m, w)).
Proof.
  intros Hl Hk. unfold setup_api. unfold bind at 1.
  rewrite load_api_key_run in *. cbn [fst] in Hl. injection Hl as Hl. rewrite Hl.
  apply truthy_Some in Hk. rewrite Hk. reflexivity.
Qed.

(** X15. With a credential on disk that loads to a string that is not
    empty, [setup_api] opens no dialog: it returns the main window with a
    client on that key and leaves the world as it was, so no request went
    out and nothing of the session happened. *)
Theorem stored_key_skips_dialog (session : list action) (m : APIKeyManager)
    (w : world) (k : str) :
  fst (load_api_key (m, w)) = Returns (Some k) -> k <> [] ->
  setup_api session (m, w)
  = (Returns (Started (create_main_ui m (CalculatorAPI_init k))), (m, w)).
Proof.
  intros Hl Hk. unfold setup_api. unfold bind at 1.
  rewrite load_api_key_run in *. cbn [fst] in Hl. injection Hl as Hl. rewrite Hl.
  apply truthy_Some in Hk. rewrite Hk. reflexivity.
Qed.

Lemma load_is_stored (m : APIKeyManager) (w : world) :
  load_api_key (m, w) = (Returns (stored m w), (m, w)).
Proof. apply load_api_key_run. Qed.

(** What [setup_api] computes when the dialog has to open. *)
Lemma setup_api_dialog (session : list action) (m : APIKeyManager) (w w1 : world)
    (d d' : APIKeyDialog) (w' : world) :
  truthy (stored m w) = false ->
  APIKeyDialog_init w = (Returns d, w1) ->
  wait_window session (d, w1) = (Returns tt, (d', w')) ->
  setup_api session (m, w) =
  if truthy (dialog_api_key d')
  then (Returns (Started (create_main_ui m
                   (CalculatorAPI_init (default [] (dialog_api_key d'))))), (m, w'))
  else (Returns Closed,
        (m, mk_world (disk w') (home_writable w') (entropy w') (wire w') (outbox w')
              (dialogs w' ++ [(lit "Error",
                 lit "No valid API key provided. Application will close.")]))).
Proof.
  intros Hl Hi Hw. unfold setup_api. unfold bind at 1.
  rewrite load_is_stored, Hl. cbn [negb].
  unfold bind at 1. unfold io at 1. cbn [fst snd]. rewrite Hi.
  unfold bind at 1. unfold on_object. cbn [fst snd]. rewrite Hw. cbn [snd].
  destruct (truthy (dialog_api_key d')); [reflexivity|]. cbn [negb].
  unfold bind, io, showerror, ret. reflexivity.
Qed.

Lemma init_same_key_file (w w1 w' : world) (m : APIKeyManager) :
  APIKeyManager_init w = (Returns m, w1) ->
  disk w' !! key_path = disk w1 !! key_path ->
  APIKeyManager_init w' = (Returns m, w').
Proof.
  intros H Hk. pose proof (init_again _ _ _ H) as H1.
  destruct (init_disk _ _ _ H) as (Hd & _).
  revert H1. unfold APIKeyManager_init, Fernet_init, bind, ret, raise.
  rewrite !get_or_create_run, Hk.
  destruct (disk w1 !! key_path) as [f|]; [|done].
  destruct (readable f); [|discriminate].
  destruct (key_ok (data f)); [|discriminate]. by intros [= <-].
Qed.

(** What [CalculatorApp.__init__] leaves, when no callback of its dialog
    raised. *)
Lemma CalculatorApp_init_cases `{!FernetLaws F} (session : list action)
    (w w' : world) (st : startup) :
  CalculatorApp_init session w = (Returns st, w') ->
  (forall f, disk w !! credential_path = Some f -> readable f = true) ->
  calm session w ->
  exists m w1,
    APIKeyManager_init w = (Returns m, w1) /\
    (forall p, p <> credential_path -> disk w' !! p = disk w1 !! p) /\
    match st with
    | Started a =>
        exists k, k <> [] /\
          a = create_main_ui m (CalculatorAPI_init k) /\
          stored m w' = Some k /\ dialogs w' = dialogs w
    | Closed =>
        truthy (stored m w') = false /\
        disk w' = disk w1 /\
        dialogs w' = dialogs w ++ [(lit "Error",
                       lit "No valid API key provided. Application will close.")]
    end.
Proof.
  intros H Hr Hc. unfold CalculatorApp_init in H. unfold bind at 1 in H.
  destruct (APIKeyManager_init w) as [[m|e] w1] eqn:Hi; [|discriminate].
  destruct (setup_api session (m, w1)) as [r [m1 w2]] eqn:Hs.
  injection H as -> ->. exists m, w1. split; [done|].
  destruct (APIKeyManager_init_run _ _ _ Hi) as (Hp & Hk & _).
  destruct (init_disk _ _ _ Hi) as (_ & Hf & _ & _ & _ & Hb).
  assert (Hr1 : forall f, disk w1 !! key_file m = Some f -> readable f = true).
  { intros f. rewrite Hp, Hf by done. apply Hr. }
  destruct (truthy (stored m w1)) eqn:Ht.
  - (* a stored key *)
    destruct (stored m w1) as [[|c k]|] eqn:Hv; try discriminate.
    unfold setup_api in Hs. unfold bind at 1 in Hs.
    rewrite load_is_stored, Hv in Hs. cbn in Hs.
    injection Hs as <- <- <-. split; [done|].
    by exists (c :: k).
  - (* the dialog *)
    pose proof (init_again _ _ _ Hi) as Hi2.
    set (d := mk_APIKeyDialog None m [] [] None false false).
    assert (Hdi : APIKeyDialog_init w1 = (Returns d, w1)).
    { unfold APIKeyDialog_init, bind, ret. by rewrite Hi2. }
    assert (Hq : quiet session (d, w1) = true).
    { apply Hc. unfold APIKeyDialog_init, bind, ret. by rewrite Hi. }
    destruct (wait_window_keeps session d w1 (disk w1 !! key_file m) Hk Hr1)
      as (d' & w3 & Hw & Hm' & _ & Hsome & Hnone & Hfr & _ & Hbx);
      [done | done | done |].
    cbn [dialog_key_manager d] in *.
    rewrite (setup_api_dialog session m w1 w1 d d' w3) in Hs by done.
    rewrite Hp in *.
    destruct (truthy (dialog_api_key d')) eqn:Ht'.
    + injection Hs as <- <- <-. split; [done|].
      destruct (dialog_api_key d') as [k|] eqn:Hk'; [|done].
      destruct (Hsome k Hk') as (H1 & H2 & H3).
      rewrite Hm', load_is_stored in H3. cbn [fst] in H3. injection H3 as H3.
      exists k. repeat apply conj; try done. congruence.
    + injection Hs as <- <- <-. cbn [disk dialogs].
      assert (Hnk : dialog_api_key d' = None).
      { destruct (dialog_api_key d') as [k|] eqn:Hk'; [|done].
        destruct (Hsome k Hk') as (H1 & _). apply truthy_Some in H1. congruence. }
      specialize (Hnone Hnk).
      assert (Hdisk : disk w3 = disk w1).
      { apply map_eq. intros p. destruct (decide (p = credential_path)) as [->|Hp'];
          [done | by apply Hfr]. }
      repeat apply conj; [done | | done | congruence].
      unfold stored in *. cbn [disk]. by rewrite Hdisk.
Qed.

(** X16. An application that started, with no callback of its dialog
    having raised, has a client whose key is not empty and is the key on
    disk: its manager loads it.  The main window shows with empty entries
    and an empty history, and no error box was shown on the way. *)
Theorem started_client_has_stored_key `{!FernetLaws F} (session : list action)
    (w w' : world) (a : CalculatorApp) :
  CalculatorApp_init session w = (Returns (Started a), w') ->
  (forall f, disk w !! credential_path = Some f -> readable f = true) ->
  calm session w ->
  api_key (api_client a) <> [] /\
  load_api_key (key_manager a, w')
  = (Returns (Some (api_key (api_client a))), (key_manager a, w')) /\
  num1_entry a = [] /\ num2_entry a = [] /\ history_text a = [] /\
  loading_label a = [] /\
  dialogs w' = dialogs w.
Proof.
  intros H Hr Hc.
  destruct (CalculatorApp_init_cases _ _ _ _ H Hr Hc)
    as (m & w1 & Hi & Hf & k & Hk & -> & Hs & Hb).
  cbn [create_main_ui api_client key_manager api_key CalculatorAPI_init
       num1_entry num2_entry history_text loading_label].
  by rewrite load_is_stored, Hs.
Qed.

(** X17. An application that closed at the start, with no callback of
    its dialog having raised, has shown the box "No valid API key
    provided. Application will close." and has stored nothing: the
    credential file is as it was, and what it holds still loads to no
    key. *)
Theorem closed_without_key `{!FernetLaws F} (session : list action)
    (w w' : world) :
  CalculatorApp_init session w = (Returns Closed, w') ->
  (forall f, disk w !! credential_path = Some f -> readable f = true) ->
  calm session w ->
  dialogs w' = dialogs w ++ [(lit "Error",
                 lit "No valid API key provided. Application will close.")] /\
  disk w' !! credential_path = disk w !! credential_path /\
  forall m w1, APIKeyManager_init w = (Returns m, w1) ->
    truthy (stored m w') = false.
Proof.
  intros H Hr Hc.
  destruct (CalculatorApp_init_cases _ _ _ _ H Hr Hc)
    as (m & w1 & Hi & Hf & Ht & Hd & Hb).
  destruct (init_disk _ _ _ Hi) as (_ & Hf1 & _).
  repeat apply conj; [done | by rewrite Hd, Hf1 |].
  intros m2 w2 Hi2. rewrite Hi in Hi2. by injection Hi2 as <- _.
Qed.

(** X18. After a start that went through, with no callback of its dialog
    having raised, the next start needs no dialog: whatever session is
    offered, [__init__] returns the same main window on the same key and
    changes nothing, so it sends nothing. *)
Theorem next_start_needs_no_dialog `{!FernetLaws F} (session again : list action)
    (w w' : world) (a : CalculatorApp) :
  CalculatorApp_init session w = (Returns (Started a), w') ->
  (forall f, disk w !! credential_path = Some f -> readable f = true) ->
  calm session w ->
  CalculatorApp_init again w' = (Returns (Started a), w').
Proof.
  intros H Hr Hc.
  destruct (CalculatorApp_init_cases _ _ _ _ H Hr Hc)
    as (m & w1 & Hi & Hf & k & Hk & -> & Hs & Hb).
  assert (Hi' : APIKeyManager_init w' = (Returns m, w')).
  { eapply init_same_key_file; [exact Hi|]. by apply Hf. }
  unfold CalculatorApp_init. unfold bind at 1. rewrite Hi'.
  rewrite (stored_key_run again m w' k); [done | | done].
  by rewrite load_is_stored, Hs.
Qed.

(** X19. [change_api_key] touches nothing of the main window but the
    client.  When no callback of its dialog raised, the client is the old
    one where the dialog hands back no key, and otherwise a client on the
    key handed back: a key that is not empty, has no white space around
    it, and is the key a manager constructed afterwards loads. *)
Theorem changed_key_is_stored `{!FernetLaws F} (session : list action)
    (a a' : CalculatorApp) (w w' : world) r :
  change_api_key session (a, w) = (r, (a', w')) ->
  (key_manager a' = key_manager a /\
   num1_entry a' = num1_entry a /\ num2_entry a' = num2_entry a /\
   result_label a' = result_label a /\ loading_label a' = loading_label a /\
   history_text a' = history_text a) /\
  ((forall f, disk w !! credential_path = Some f -> readable f = true) ->
   calm session w ->
   forall d w1 rw d' w2,
     APIKeyDialog_init w = (Returns d, w1) ->
     wait_window session (d, w1) = (rw, (d', w2)) ->
     match dialog_api_key d' with
     | None => api_client a' = api_client a
     | Some k =>
         k <> [] /\ strip k = k /\
         api_client a' = CalculatorAPI_init k /\
         forall m w3, APIKeyManager_init w' = (Returns m, w3) ->
           load_api_key (m, w3) = (Returns (Some k), (m, w3))
     end).
Proof.
  intros H. unfold change_api_key in H. unfold bind at 1 in H.
  unfold io at 1 in H. cbn [fst snd] in H.
  destruct (APIKeyDialog_init w) as [[d|e] w1] eqn:Hdi.
  2: { injection H as _ <- _. split; [done|]. intros _ _ d w2 rw d' w3 Hd. discriminate. }
  unfold bind at 1 in H. unfold on_object in H. cbn [fst snd] in H.
  destruct (wait_window session (d, w1)) as [rw [d' w3]] eqn:Hw.
  assert (Hframe : key_manager a' = key_manager a /\
   num1_entry a' = num1_entry a /\ num2_entry a' = num2_entry a /\
   result_label a' = result_label a /\ loading_label a' = loading_label a /\
   history_text a' = history_text a).
  { destruct rw as [[]|e]; cbn [snd] in H; [|by injection H as _ <- _].
    destruct (truthy (dialog_api_key d')); [|by injection H as _ <- _].
    unfold update in H. cbn [fst snd] in H. by injection H as _ <- _. }
  split; [exact Hframe|].
  intros Hr Hc d0 w0 rw0 d0' w0' [= <- <-] Hw0. rewrite Hw in Hw0.
  injection Hw0 as _ <- <-.
  pose proof (Hc d w1 Hdi) as Hq.
  apply APIKeyDialog_init_run in Hdi as [Hm Hd].
  destruct (APIKeyManager_init_run _ _ _ Hm) as (Hp & Hk & _).
  destruct (init_disk _ _ _ Hm) as (_ & Hf & _).
  assert (Hr1 : forall f, disk w1 !! key_file (dialog_key_manager d) = Some f ->
                          readable f = true).
  { intros f. rewrite Hp, Hf by done. apply Hr. }
  destruct (wait_window_keeps session d w1 (disk w1 !! credential_path) Hk Hr1)
    as (d2 & w4 & Hw' & Hm' & _ & Hsome & _ & Hfr & _ & _).
  { intros k Hk'. rewrite Hd in Hk'. discriminate. }
  { intros _. by rewrite Hp. }
  { exact Hq. }
  rewrite Hw in Hw'. injection Hw' as -> <- <-. cbn [snd] in H.
  destruct (dialog_api_key d') as [k|] eqn:Hk'.
  - destruct (Hsome k Hk') as (H1 & H2 & H3).
    assert (Ht : truthy (Some k) = true) by by apply truthy_Some.
    rewrite Ht in H. unfold update in H. cbn [fst snd] in H. injection H as _ <- <-.
    repeat apply conj; try done.
    intros m2 w2 Hi2.
    assert (Hi3 : APIKeyManager_init w3 = (Returns (dialog_key_manager d), w3)).
    { eapply init_same_key_file; [exact Hm|]. apply Hfr. by rewrite Hp. }
    rewrite Hi3 in Hi2. injection Hi2 as <- <-.
    rewrite Hm', load_is_stored in H3. cbn [fst] in H3. injection H3 as H3.
    by rewrite load_is_stored, H3.
  - cbn [truthy] in H. by injection H as _ <- _.
Qed.

End Startup.

Section Calculations.
Context {P : Platform}.

(** What [calculate] computes once both entries have been read as floats
    and the guard has let them through. *)
Lemma calculate_call (a : CalculatorApp) (w : world) (op : str) (n1 n2 : float) :
  float_of_str (num1_entry a) = Some n1 ->
  float_of_str (num2_entry a) = Some n2 ->
  bool_decide (op = lit "/") && float_is_zero n2 = false ->
  calculate op (a, w) =
  match fst (call_api n1 n2 op (api_client a, w)) with
  | Returns x =>
      (Returns tt,
       (set_loading_label []
          (history_insert_end (history_line n1 n2 op x)
             (set_result_label (float_format_2f x) a)),
        after_call n1 n2 op (api_client a) w))
  | Raises e =>
      (Returns tt,
       (set_loading_label [] a,
        mk_world (disk w) (home_writable w) (entropy w) (tail (wire w))
                 (outbox w ++ [sent n1 n2 op (api_client a)])
                 (dialogs w ++ [(lit "Error", exn_msg e)])))
  end.
Proof.
  intros H1 H2 Hg.
  pose proof (call_api_state n1 n2 op (api_client a) w) as Hs.
  pose proof (call_api_raises n1 n2 op (api_client a) w) as Hr.
  destruct (call_api n1 n2 op (api_client a, w)) as [[x|e] [c1 w1]] eqn:Hc;
    cbn [fst snd] in *; injection Hs as -> ->.
  - unfold calculate, float_. run. rewrite H1. step. rewrite H2. step.
    rewrite Hg. step. rewrite Hc. step. by destruct a.
  - destruct (Hr e eq_refl) as [Hcls _].
    unfold calculate, float_. run. rewrite H1. step. rewrite H2. step.
    rewrite Hg. step. rewrite Hc. step. rewrite Hcls. step.
    unfold after_call. by destruct a.
Qed.

(** What [calculate] computes when an entry does not read as a float. *)
Lemma calculate_invalid (a : CalculatorApp) (w : world) (op : str) :
  float_of_str (num1_entry a) = None \/ float_of_str (num2_entry a) = None ->
  calculate op (a, w) =
  (Returns tt,
   (set_loading_label [] a,
    mk_world (disk w) (home_writable w) (entropy w) (wire w) (outbox w)
             (dialogs w ++ [(lit "Error", lit "Please enter valid numbers")]))).
Proof.
  intros H. unfold calculate, float_. run.
  destruct (float_of_str (num1_entry a)) as [n1|]; step; [|by destruct a].
  destruct H as [H|H]; [done|]. rewrite H. step. by destruct a.
Qed.

(** What [calculate] computes when the guard stops a division. *)
Lemma calculate_guarded (a : CalculatorApp) (w : world) (op : str) (n1 n2 : float) :
  float_of_str (num1_entry a) = Some n1 ->
  float_of_str (num2_entry a) = Some n2 ->
  bool_decide (op = lit "/") && float_is_zero n2 = true ->
  calculate op (a, w) =
  (Returns tt,
   (set_loading_label [] a,
    mk_world (disk w) (home_writable w) (entropy w) (wire w) (outbox w)
             (dialogs w ++ [(lit "Error", lit "Cannot divide by zero")]))).
Proof.
  intros H1 H2 Hg. unfold calculate, float_. run. rewrite H1. step.
  rewrite H2. step. rewrite Hg. step. by destruct a.
Qed.

(** X20. When one of the entries does not read as a float, [calculate]
    shows "Please enter valid numbers" and does nothing else: no request
    goes out, and the history and the result stay. *)
Theorem invalid_entry_is_refused (a : CalculatorApp) (w : world) (op : str) :
  float_of_str (num1_entry a) = None \/ float_of_str (num2_entry a) = None ->
  exists a' w',
    calculate op (a, w) = (Returns tt, (a', w')) /\
    dialogs w' = dialogs w ++ [(lit "Error", lit "Please enter valid numbers")] /\
    outbox w' = outbox w /\ wire w' = wire w /\ disk w' = disk w /\
    history_text a' = history_text a /\ result_label a' = result_label a /\
    loading_label a' = [].
Proof.
  intros H. rewrite (calculate_invalid a w op H). by eexists _, _.
Qed.

(** X21. [calculate] never raises, whatever is typed and whatever the
    network does.  It leaves the loading label empty, the entries, the
    client and the files as they were, and has sent at most one request.
    Either it has shown one error box and left the history and the result
    alone, or it has shown none and added one line to the history. *)
Theorem calculate_always_returns (a : CalculatorApp) (w : world) (op : str) :
  exists a' w',
    calculate op (a, w) = (Returns tt, (a', w')) /\
    loading_label a' = [] /\
    num1_entry a' = num1_entry a /\ num2_entry a' = num2_entry a /\
    api_client a' = api_client a /\ key_manager a' = key_manager a /\
    disk w' = disk w /\
    (outbox w' = outbox w \/ exists q, outbox w' = outbox w ++ [q]) /\
    ((exists message, dialogs w' = dialogs w ++ [(lit "Error", message)]) /\
     history_text a' = history_text a /\ result_label a' = result_label a
     \/
     dialogs w' = dialogs w /\
     exists n1 n2 x,
       history_text a' = history_text a ++ history_line n1 n2 op x /\
       result_label a' = float_format_2f x).
Proof.
  destruct (float_of_str (num1_entry a)) as [n1|] eqn:H1.
  2: { rewrite (calculate_invalid a w op) by auto.
       eexists _, _. repeat apply conj; try reflexivity; [by left|].
       left. repeat apply conj; try reflexivity. by eexists. }
  destruct (float_of_str (num2_entry a)) as [n2|] eqn:H2.
  2: { rewrite (calculate_invalid a w op) by auto.
       eexists _, _. repeat apply conj; try reflexivity; [by left|].
       left. repeat apply conj; try reflexivity. by eexists. }
  destruct (bool_decide (op = lit "/") && float_is_zero n2) eqn:Hg.
  { rewrite (calculate_guarded a w op n1 n2) by done.
    eexists _, _. repeat apply conj; try reflexivity; [by left|].
    left. repeat apply conj; try reflexivity. by eexists. }
  rewrite (calculate_call a w op n1 n2) by done.
  destruct (fst (call_api n1 n2 op (api_client a, w))) as [x|e].
  - eexists _, _. repeat apply conj; try reflexivity; [right; by eexists|].
    right. split; [reflexivity|]. by exists n1, n2, x.
  - eexists _, _. repeat apply conj; try reflexivity; [right; by eexists|].
    left. repeat apply conj; try reflexivity. by eexists.
Qed.

(** X22. When both entries read as floats, the guard lets them through
    and the response has status 200 and a first text that [float] reads
    as [x], [calculate] shows [x] with two decimals as the result and adds
    the line "n1 op n2 = x" to the end of the history; no error box is
    shown. *)
Theorem answer_is_shown (a : CalculatorApp) (w : world) (op : str)
    (n1 n2 x : float) r rest body o :
  float_of_str (num1_entry a) = Some n1 ->
  float_of_str (num2_entry a) = Some n2 ->
  bool_decide (op = lit "/") && float_is_zero n2 = false ->
  wire w = Returns r :: rest -> status_code r = 200 -> json r = Some body ->
  fst (first_text (S:=unit) body tt) = Returns o ->
  fst (float_ (S:=unit) o tt) = Returns x ->
  exists a' w',
    calculate op (a, w) = (Returns tt, (a', w')) /\
    result_label a' = float_format_2f x /\
    history_text a'
    = history_text a ++ float_str n1 ++ lit " " ++ op ++ lit " " ++ float_str n2
      ++ lit " = " ++ float_format_2f x ++ [10] /\
    loading_label a' = [] /\
    dialogs w' = dialogs w /\ wire w' = rest /\
    outbox w' = outbox w ++ [sent n1 n2 op (api_client a)].
Proof.
  intros H1 H2 Hg Hw Hs Hj Ht Hx.
  rewrite (calculate_call a w op n1 n2) by done.
  rewrite (call_api_answer _ _ _ _ _ _ _ _ _ Hw Hs Hj Ht), Hx.
  eexists _, _. repeat apply conj; try reflexivity.
  unfold after_call. cbn [wire]. by rewrite Hw.
Qed.

(** X23. [call_api] returns a number only from a response with status
    200 whose body is JSON, has a first text of a first candidate, and
    there a value that [float] reads as that number. *)
Theorem number_only_from_parsed_answer (c : CalculatorAPI) (w : world)
    (n1 n2 x : float) (op : str) :
  fst (call_api n1 n2 op (c, w)) = Returns x ->
  exists r rest body o,
    wire w = Returns r :: rest /\ status_code r = 200 /\ json r = Some body /\
    fst (first_text (S:=unit) body tt) = Returns o /\
    fst (float_ (S:=unit) o tt) = Returns x.
Proof.
  unfold call_api. run.
  destruct (wire w) as [|[r|e] rest]; step; try discriminate.
  destruct (Z.eqb_spec (status_code r) 200) as [Hs|]; step; [|discriminate].
  destruct (json r) as [body|] eqn:Hj; step; [|discriminate].
  rewrite first_text_pure.
  destruct (first_text (S:=unit) body tt) as [[o|e] []] eqn:Ht; step; [|discriminate].
  rewrite float_pure.
  destruct (float_ (S:=unit) o tt) as [[y|e] []] eqn:Hy; step; [|discriminate].
  intros [= ->]. exists r, rest, body, o. rewrite Ht, Hy. done.
Qed.

(** X24. A response with status 200 whose list of candidates is empty is
    an error: the [IndexError] of [[0]] comes out of [call_api] as
    "API call failed: " followed by its message. *)
Theorem no_candidate_is_an_error (c : CalculatorAPI) (w : world)
    (n1 n2 : float) (op : str) r rest d :
  wire w = Returns r :: rest -> status_code r = 200 ->
  json r = Some (PDict d) ->
  dict_get d (lit "candidates") = Some (PList []) ->
  call_api n1 n2 op (c, w) =
  (Raises (mk_exn Exception (lit "API call failed: " ++ describe IndexOutOfRange)),
   (c, after_call n1 n2 op c w)).
Proof.
  intros Hw Hs Hj Hd.
  rewrite (surjective_pairing (call_api n1 n2 op (c, w))), call_api_state.
  f_equal. unfold call_api. run. rewrite Hw. step. rewrite Hs. cbn [Z.eqb Pos.eqb].
  rewrite Hj. step. unfold first_text, bind. cbn [subscript].
  unfold or_raise, ret, raise. rewrite Hd. reflexivity.
Qed.

(** X25. When both entries read as floats and the guard lets them
    through, which it does for every operation but "/" even with a zero
    second operand, [calculate] sends exactly one request: to the client's
    endpoint, with the client's key in the header and the instruction made
    of the two numbers and the operation. *)
Theorem one_request_per_calculation (a : CalculatorApp) (w : world) (op : str)
    (n1 n2 : float) :
  float_of_str (num1_entry a) = Some n1 ->
  float_of_str (num2_entry a) = Some n2 ->
  op <> lit "/" \/ float_is_zero n2 = false ->
  exists a' w',
    calculate op (a, w) = (Returns tt, (a', w')) /\
    outbox w' = outbox w ++
      [mk_request (base_url (api_client a))
         [(lit "Content-Type", lit "application/json");
          (lit "x-goog-api-key", api_key (api_client a))]
         (request_data (instruction n1 n2 op))] /\
    wire w' = tail (wire w).
Proof.
  intros H1 H2 Hg.
  rewrite (calculate_call a w op n1 n2); try done.
  - destruct (fst (call_api n1 n2 op (api_client a, w))); by eexists _, _.
  - destruct Hg as [Hg|Hg]; [by rewrite bool_decide_eq_false_2 | rewrite Hg].
    apply andb_false_r.
Qed.

(** X26. The error box names the cause.  For a status other than 200 it
    reads "API call failed: API Error: " and the status; for a transport
    error, "API call failed: " and the message of that error. *)
Theorem error_box_names_cause (a : CalculatorApp) (w : world) (op : str)
    (n1 n2 : float) (answer : outcome response) rest :
  float_of_str (num1_entry a) = Some n1 ->
  float_of_str (num2_entry a) = Some n2 ->
  bool_decide (op = lit "/") && float_is_zero n2 = false ->
  wire w = answer :: rest ->
  match answer with
  | Returns r => status_code r <> 200
  | Raises _ => True
  end ->
  exists a' w',
    calculate op (a, w) = (Returns tt, (a', w')) /\
    dialogs w' = dialogs w ++
      [(lit "Error",
        lit "API call failed: " ++
        match answer with
        | Returns r => lit "API Error: " ++ int_str (status_code r)
        | Raises e => exn_msg e
        end)] /\
    history_text a' = history_text a /\ result_label a' = result_label a.
Proof.
  intros H1 H2 Hg Hw Ha.
  rewrite (calculate_call a w op n1 n2) by done.
  destruct answer as [r|e].
  - rewrite (call_api_bad_status _ _ _ _ _ _ _ Hw Ha). by eexists _, _.
  - rewrite (call_api_transport_error _ _ _ _ _ _ _ Hw). by eexists _, _.
Qed.

End Calculations.

(** ** The statements on the reference platform *)

Import Reference.

(** The hypotheses of C1 hold of the fresh profile and the string "abc". *)
Lemma save_then_load_witness :
  save_api_key (lit "abc") (manager, fresh) = (Returns tt, (manager, saved)) /\
  load_api_key (manager, saved) = (Returns (Some (lit "abc")), (manager, saved)).
Proof.
  destruct (save_then_load (FernetLaws0 := ReferenceLaws.shift_laws)
              manager fresh (lit "abc")) as [Hload Hsave].
  - reflexivity.
  - intros f H. vm_compute in H. discriminate.
  - split; [reflexivity|]. apply Hload. reflexivity.
Defined.

(** The hypotheses of C2 hold of the fresh profile, and of the saved
    token with its first octet changed from 7 to 8, which the reference
    cipher rejects. *)
Lemma load_None_on_failure_witness :
  load_api_key (manager, fresh) = (Returns None, (manager, fresh)) /\
  load_api_key (manager, tampered) = (Returns None, (manager, tampered)) /\
  (load_api_key (manager, tampered) = (Returns None, (manager, tampered)) \/
   load_api_key (manager, tampered)
   = (Returns (Some (lit "abc")), (manager, tampered))).
Proof.
  destruct (load_None_on_failure (F := shift_cipher) manager fresh)
    as (_ & Habsent & _ & _ & Hflip).
  split; [apply Habsent; reflexivity|].
  destruct (Hflip (lit "abc") manager saved (mk_file token true true) flipped tampered)
    as [Hnone Hsigned].
  - reflexivity.
  - reflexivity.
  - reflexivity.
  - exists [], 7, 8, [107; 108; 109; 85].
    split; [reflexivity | split; [reflexivity | split; [lia | unfold is_byte; lia]]].
  - reflexivity.
  - split; [apply Hnone; reflexivity | apply Hsigned, ReferenceLaws.shift_integrity].
Defined.

(** C2 as it was stated fails under Fernet's token format: the token of
    "abc" ends in [Q==], the four low bits of that [Q] belong to no octet
    of the data, and with [S] in its place the token decodes, verifies and
    decrypts as before, whatever cipher and signature are underneath
    ([token_decrypt_slack]).  [load_api_key] returns "abc", not [None]. *)
Lemma changed_token_still_loads :
  save_api_key (F := Format.fernet) (lit "abc") (Format.manager, Format.keyed)
  = (Returns tt, (Format.manager, Format.saved)) /\
  disk Format.saved !! key_file Format.manager = Some (mk_file Format.token true true) /\
  Format.token
  = lit "gAAAAABlU_EIKDM-SVRfanWAi5ahrLfCzeHt-a65xM_a5fD7BhEcJzLIz9bd5Ovy-QAHDhUcIyoxOD9GTVRbYmlwd36FjJOaoQ==" /\
  Format.flipped
  = lit "gAAAAABlU_EIKDM-SVRfanWAi5ahrLfCzeHt-a65xM_a5fD7BhEcJzLIz9bd5Ovy-QAHDhUcIyoxOD9GTVRbYmlwd36FjJOaoS==" /\
  one_byte_changed Format.token Format.flipped /\
  disk Format.tampered !! key_file Format.manager
  = Some (mk_file Format.flipped true true) /\
  fst (load_api_key (F := Format.fernet) (Format.manager, Format.tampered))
  = Returns (Some (lit "abc")) /\
  fst (load_api_key (F := Format.fernet) (Format.manager, Format.tampered))
  <> Returns None.
Proof.
  assert (Hload : fst (load_api_key (F := Format.fernet)
                         (Format.manager, Format.tampered))
                  = Returns (Some (lit "abc"))) by (vm_compute; reflexivity).
  repeat apply conj.
  - reflexivity.
  - reflexivity.
  - vm_compute. reflexivity.
  - vm_compute. reflexivity.
  - exists (take 97 Format.token), 81, 83, [61; 61].
    split; [reflexivity | split; [reflexivity | split; [lia | unfold is_byte; lia]]].
  - reflexivity.
  - exact Hload.
  - rewrite Hload. discriminate.
Qed.

(** The hypotheses of C3 hold of the fresh profile. *)
Lemma get_or_create_idempotent_witness :
  exists w',
    _get_or_create_encryption_key fresh = (Returns [7; 0; 0; 0], w') /\
    _get_or_create_encryption_key w' = (Returns [7; 0; 0; 0], w').
Proof.
  destruct (get_or_create_idempotent (F := shift_cipher) fresh) as (_ & Hnew & Hagain).
  destruct (Hnew ltac:(reflexivity) ltac:(reflexivity)) as (w' & Hw' & _).
  exists w'. split; [exact Hw' | exact (Hagain _ _ Hw')].
Defined.

(** C4 as it was stated fails on a credential file that cannot be read:
    [load_api_key] returns [None] there and raises nothing, an [OSError]
    least of all. *)
Lemma load_swallows_read_error :
  disk locked !! key_file manager = Some (mk_file [0; 1; 1] false true) /\
  load_api_key (manager, locked) = (Returns None, (manager, locked)) /\
  ~ raised_cls OSError (fst (load_api_key (manager, locked))).
Proof.
  repeat apply conj.
  - reflexivity.
  - reflexivity.
  - intros [msg H]. vm_compute in H. discriminate.
Qed.

(** The hypotheses of C4 as amended hold of a read-only profile and of a
    profile whose credential file cannot be read. *)
Lemma storage_errors_witness :
  raised_cls OSError (fst (_get_or_create_encryption_key read_only)) /\
  raised_cls OSError (fst (save_api_key (lit "abc") (manager, read_only))) /\
  load_api_key (manager, locked) = (Returns None, (manager, locked)).
Proof.
  destruct (storage_errors (F := shift_cipher) manager read_only) as (H1 & _ & H3 & _).
  destruct (storage_errors (F := shift_cipher) manager locked) as (_ & _ & _ & _ & H5).
  repeat apply conj.
  - apply H1; reflexivity.
  - apply H3; [eexists; vm_compute; reflexivity | reflexivity].
  - apply (H5 (mk_file [0; 1; 1] false true)); reflexivity.
Defined.

(** The hypotheses of C5 hold of the answer "approximately four". *)
Lemma unparsable_answer_witness :
  call_api 6 3 (symbol divide)
    (client, online (Returns (answer (lit "approximately four"))))
  = (Raises (mk_exn Exception
       (lit "API call failed: could not convert string to float: 'approximately four'")),
     (client, after_call 6 3 (symbol divide) client
                (online (Returns (answer (lit "approximately four")))))).
Proof.
  apply (unparsable_answer_is_an_error (P := whole_floats) client
           (online (Returns (answer (lit "approximately four"))))
           6 3 (symbol divide) (answer (lit "approximately four")) []
           (default PNone (json (answer (lit "approximately four"))))
           (lit "approximately four")); reflexivity.
Defined.

(** The hypotheses of C6 hold of the entries "6" and "0". *)
Lemma zero_divisor_guard_witness :
  exists a' w' message,
    calculate (symbol divide)
      (window (lit "6") (lit "0"), online (Returns (answer (lit "2"))))
    = (Returns tt, (a', w')) /\
    outbox w' = [] /\ wire w' = [Returns (answer (lit "2"))] /\
    dialogs w' = [] ++ [(lit "Error", message)] /\
    (is_Some (whole_of_str (lit "6")) -> message = lit "Cannot divide by zero") /\
    history_text a' = [] /\ result_label a' = lit "Result will appear here".
Proof.
  apply (zero_divisor_guard (P := whole_floats) (window (lit "6") (lit "0"))
           (online (Returns (answer (lit "2")))) 0); reflexivity.
Defined.

(** The hypotheses of C8 hold of the fresh profile and of the saved one. *)
Lemma delete_semantics_witness :
  (delete_api_key (manager, fresh) = (Returns tt, (manager, fresh)) /\
   load_api_key (manager, fresh) = (Returns None, (manager, fresh))) /\
  exists w',
    delete_api_key (manager, saved) = (Returns tt, (manager, w')) /\
    disk w' = delete (key_file manager) (disk saved) /\
    disk w' !! key_file manager = None.
Proof.
  destruct (delete_semantics (F := shift_cipher) manager fresh) as (Hno & _).
  destruct (delete_semantics (F := shift_cipher) manager saved) as (_ & Hyes).
  split.
  - apply Hno. reflexivity.
  - apply Hyes; [eexists; vm_compute; reflexivity | reflexivity].
Defined.

(** The hypotheses of C9 hold of the entries "6" and "3" and a remote end
    that answers 500. *)
Lemma failed_call_leaves_state_witness :
  exists a' w',
    calculate (symbol add)
      (window (lit "6") (lit "3"), online (Returns (mk_response 500 None)))
    = (Returns tt, (a', w')) /\
    history_text a' = [] /\
    result_label a' = lit "Result will appear here" /\
    num1_entry a' = lit "6" /\ num2_entry a' = lit "3" /\
    api_client a' = client /\
    loading_label a' = [] /\
    dialogs w' = [] ++ [(lit "Error", lit "API call failed: API Error: 500")].
Proof.
  apply (failed_call_leaves_state (P := whole_floats) (window (lit "6") (lit "3"))
           (online (Returns (mk_response 500 None))) (symbol add) 6 3
           (mk_exn Exception (lit "API call failed: API Error: 500"))
           client
           (after_call (P := whole_floats) 6 3 (symbol add) client
              (online (Returns (mk_response 500 None))))).
  - reflexivity.
  - reflexivity.
  - reflexivity.
  - reflexivity.
Defined.

(** The hypothesis of C10 holds of the reference manager. *)
Lemma credential_operations_frame_witness :
  disk saved !! key_path = disk fresh !! key_path /\
  snd (load_api_key (manager, saved)) = (manager, saved).
Proof.
  destruct (credential_operations_frame (F := shift_cipher) manager fresh
              ltac:(reflexivity)) as (Hsave & _ & _).
  destruct (credential_operations_frame (F := shift_cipher) manager saved
              ltac:(reflexivity)) as (_ & Hload & _).
  split.
  - refine (proj1 (proj2 (Hsave (lit "abc") (Returns tt) manager saved _))).
    reflexivity.
  - destruct (load_api_key (manager, saved)) as [r [m' w']] eqn:E.
    destruct (Hload r m' w' eq_refl) as [-> ->]. reflexivity.
Defined.

(** ** The further properties on the reference platform *)

Import Scenes.

Lemma constructed_manager_witness :
  APIKeyManager_init (profile []) = (Returns first_manager, keyed []) /\
  APIKeyManager_init (keyed []) = (Returns first_manager, keyed []).
Proof.
  destruct (constructed_manager (F := shift_cipher) (profile []) (keyed []) first_manager
              ltac:(reflexivity)) as (_ & _ & _ & _ & _ & H).
  split; [reflexivity | exact H].
Defined.

Lemma bad_key_file_stops_construction_witness :
  APIKeyManager_init corrupt = (Raises (builtin_error ValueError BadFernetKey), corrupt).
Proof.
  apply (bad_key_file_stops_construction (F := shift_cipher) corrupt
           (mk_file [1] true true));
    reflexivity.
Defined.

Lemma saved_by_one_loaded_by_another_witness :
  load_api_key
    (first_manager, snd (snd (save_api_key (lit "abc") (first_manager, keyed []))))
  = (Returns (Some (lit "abc")),
     (first_manager, snd (snd (save_api_key (lit "abc") (first_manager, keyed []))))).
Proof.
  apply (saved_by_one_loaded_by_another (FernetLaws0 := ReferenceLaws.shift_laws)
           (profile []) (keyed [])
           (snd (snd (save_api_key (lit "abc") (first_manager, keyed []))))
           (snd (snd (save_api_key (lit "abc") (first_manager, keyed []))))
           first_manager first_manager first_manager (lit "abc")).
  - reflexivity.
  - intros f H. vm_compute in H. discriminate.
  - reflexivity.
  - reflexivity.
Defined.

Lemma unencodable_key_is_refused_witness :
  save_api_key [0xD800] (manager, saved)
  = (Raises (builtin_error UnicodeEncodeError (CannotEncode [0xD800])), (manager, saved)) /\
  load_api_key (snd (save_api_key [0xD800] (manager, saved)))
  = (Returns (Some (lit "abc")), (manager, saved)).
Proof.
  destruct (unencodable_key_is_refused (F := shift_cipher) manager saved [0xD800])
    as [Hrefused _].
  destruct (Hrefused ltac:(reflexivity)) as [Hs Hl].
  split; [exact Hs|]. rewrite Hl. reflexivity.
Defined.

Lemma second_save_replaces_first_witness :
  load_api_key
    (manager, snd (snd (save_api_key (lit "xyz") (manager, saved))))
  = (Returns (Some (lit "xyz")),
     (manager, snd (snd (save_api_key (lit "xyz") (manager, saved))))).
Proof.
  apply (second_save_replaces_first (FernetLaws0 := ReferenceLaws.shift_laws)
           manager manager manager fresh saved
           (snd (snd (save_api_key (lit "xyz") (manager, saved))))
           (lit "abc") (lit "xyz")).
  - reflexivity.
  - intros f H. vm_compute in H. discriminate.
  - reflexivity.
  - reflexivity.
Defined.

Lemma deleted_is_gone_witness :
  load_api_key (manager, snd (snd (delete_api_key (manager, saved))))
  = (Returns None, (manager, snd (snd (delete_api_key (manager, saved))))).
Proof.
  refine (proj1 (proj2 (deleted_is_gone (F := shift_cipher) manager manager saved
            (snd (snd (delete_api_key (manager, saved)))) _))).
  reflexivity.
Defined.

Lemma failed_delete_keeps_credential_witness :
  snd (snd (delete_api_key (manager, pinned))) = pinned.
Proof.
  refine (proj1 (proj2 (proj2 (failed_delete_keeps_credential
            manager manager pinned (snd (snd (delete_api_key (manager, pinned))))
            (builtin_error OSError (PermissionDenied credential_path)) _)))).
  reflexivity.
Defined.

Lemma blank_entry_is_refused_witness :
  test_and_save_key (typed (lit "  "), keyed [accepted])
  = (Returns tt,
     (status_config (lit "Please enter an API key") (lit "red") (typed (lit "  ")),
      keyed [accepted])).
Proof.
  apply (blank_entry_is_refused (F := shift_cipher) (typed (lit "  "))
           (keyed [accepted])).
  reflexivity.
Defined.

Lemma rejected_key_is_not_saved_witness :
  exists d' w',
    test_and_save_key (typed (lit " key "), keyed [denied]) = (Returns tt, (d', w')) /\
    disk w' = disk (keyed [denied]) /\
    outbox w' = [probe_request (lit "key")] /\
    dialog_api_key d' = None.
Proof.
  destruct (rejected_key_is_not_saved (F := shift_cipher) (typed (lit " key "))
              (keyed [denied])) as (d' & w' & H & Hd & Ho & Hk & _).
  - discriminate.
  - reflexivity.
  - exists d', w'. repeat apply conj; assumption.
Defined.

Lemma accepted_key_is_saved_witness :
  exists d' w',
    test_and_save_key (typed (lit " key "), keyed [accepted]) = (Returns tt, (d', w')) /\
    dialog_api_key d' = Some (lit "key") /\ closing d' = true /\
    load_api_key (first_manager, w') = (Returns (Some (lit "key")), (first_manager, w')).
Proof.
  destruct (accepted_key_is_saved (FernetLaws0 := ReferenceLaws.shift_laws)
              (typed (lit " key ")) (keyed [accepted]))
    as (d' & w' & H & Hk & Hc & _ & _ & _ & _ & Hl).
  - discriminate.
  - reflexivity.
  - reflexivity.
  - intros f H. vm_compute in H. discriminate.
  - eexists. reflexivity.
  - intros H. vm_compute in H. discriminate.
  - exists d', w'. repeat apply conj; assumption.
Defined.

Lemma accepted_but_not_saved_witness :
  dialog_api_key (fst (snd (test_and_save_key (typed (lit " key "), sealed [accepted]))))
  = None /\
  status_text (fst (snd (test_and_save_key (typed (lit " key "), sealed [accepted]))))
  = lit "Testing API key..." /\
  disk (snd (snd (test_and_save_key (typed (lit " key "), sealed [accepted]))))
  !! key_path = disk (sealed [accepted]) !! key_path.
Proof.
  destruct (accepted_but_not_saved (F := shift_cipher) (typed (lit " key "))
       (fst (snd (test_and_save_key (typed (lit " key "), sealed [accepted]))))
       (sealed [accepted])
       (snd (snd (test_and_save_key (typed (lit " key "), sealed [accepted]))))
       (builtin_error OSError (PermissionDenied credential_path)))
    as (_ & _ & Hk & _ & _ & Ht & Hf).
  - reflexivity.
  - split; [exact Hk | split; [exact Ht | apply Hf; discriminate]].
Defined.

Lemma session_hands_back_stored_key_witness :
  dialog_api_key (fst (snd (wait_window enter_key (opened, keyed [accepted]))))
  = Some (lit "key") /\
  load_api_key (first_manager, snd (snd (wait_window enter_key (opened, keyed [accepted]))))
  = (Returns (Some (lit "key")),
     (first_manager, snd (snd (wait_window enter_key (opened, keyed [accepted]))))).
Proof.
  assert (Hk : dialog_api_key
                 (fst (snd (wait_window enter_key (opened, keyed [accepted]))))
               = Some (lit "key")) by (vm_compute; reflexivity).
  assert (Hi : APIKeyDialog_init (profile [accepted])
               = (Returns opened, keyed [accepted])) by reflexivity.
  assert (Hr : forall f, disk (keyed [accepted]) !! credential_path = Some f ->
                         readable f = true)
    by (intros f H; vm_compute in H; discriminate).
  assert (Hq : quiet enter_key (opened, keyed [accepted]) = true)
    by (vm_compute; reflexivity).
  destruct (session_hands_back_stored_key (P := whole_floats)
              (FernetLaws0 := ReferenceLaws.shift_laws)
              enter_key _ _ _ Hi Hr Hq _ _ _
              (run_parts (wait_window enter_key (opened, keyed [accepted]))))
    as (Hs & _).
  split; [exact Hk | apply (Hs (lit "key") Hk)].
Defined.

Lemma no_200_nothing_stored_witness :
  exists d' w',
    wait_window [Typing (lit "key"); PressTestAndSave; PressTestAndSave]
      (opened, keyed [denied; denied]) = (Returns tt, (d', w')) /\
    disk w' = disk (keyed [denied; denied]) /\ dialog_api_key d' = None.
Proof.
  destruct (no_200_nothing_stored (F := shift_cipher)
              [Typing (lit "key"); PressTestAndSave; PressTestAndSave]
              opened (keyed [denied; denied]))
    as (d' & w' & H & Hd & Hk & _).
  - intros r [H|[H|[]]]; injection H as <-; discriminate.
  - exists d', w'. repeat apply conj; assumption.
Defined.

Lemma stored_key_skips_dialog_witness :
  setup_api enter_key (manager, saved)
  = (Returns (Started (create_main_ui manager (CalculatorAPI_init (lit "abc")))),
     (manager, saved)).
Proof.
  apply (stored_key_skips_dialog (F := shift_cipher) enter_key manager saved (lit "abc")).
  - reflexivity.
  - discriminate.
Defined.

Lemma started_client_has_stored_key_witness :
  load_api_key
    (first_manager, snd (CalculatorApp_init enter_key (profile [accepted])))
  = (Returns (Some (lit "key")),
     (first_manager, snd (CalculatorApp_init enter_key (profile [accepted])))).
Proof.
  refine (proj1 (proj2 (started_client_has_stored_key
            (FernetLaws0 := ReferenceLaws.shift_laws) enter_key (profile [accepted])
            (snd (CalculatorApp_init enter_key (profile [accepted])))
            (create_main_ui first_manager (CalculatorAPI_init (lit "key"))) _ _ _))).
  - reflexivity.
  - intros f H. vm_compute in H. discriminate.
  - intros d w1 [= <- <-]. reflexivity.
Defined.

Lemma closed_without_key_witness :
  dialogs (snd (CalculatorApp_init [PressCancel] (profile [])))
  = [] ++ [(lit "Error", lit "No valid API key provided. Application will close.")].
Proof.
  refine (proj1 (closed_without_key (FernetLaws0 := ReferenceLaws.shift_laws)
            [PressCancel] (profile [])
            (snd (CalculatorApp_init [PressCancel] (profile []))) _ _ _)).
  - reflexivity.
  - intros f H. vm_compute in H. discriminate.
  - intros d w1 [= <- <-]. reflexivity.
Defined.

Lemma next_start_needs_no_dialog_witness :
  CalculatorApp_init [] (snd (CalculatorApp_init enter_key (profile [accepted])))
  = (Returns (Started (create_main_ui first_manager (CalculatorAPI_init (lit "key")))),
     snd (CalculatorApp_init enter_key (profile [accepted]))).
Proof.
  apply (next_start_needs_no_dialog (FernetLaws0 := ReferenceLaws.shift_laws)
           enter_key [] (profile [accepted])).
  - reflexivity.
  - intros f H. vm_compute in H. discriminate.
  - intros d w1 [= <- <-]. reflexivity.
Defined.

Lemma changed_key_is_stored_witness :
  load_api_key (first_manager, stocked [accepted])
  = (Returns (Some (lit "old")), (first_manager, stocked [accepted])) /\
  api_client (fst (snd (change_api_key enter_key (shown, stocked [accepted]))))
  = CalculatorAPI_init (lit "key") /\
  history_text (fst (snd (change_api_key enter_key (shown, stocked [accepted]))))
  = lit "6.0 / 3.0 = 2.00" ++ [10] /\
  load_api_key
    (first_manager, snd (snd (change_api_key enter_key (shown, stocked [accepted]))))
  = (Returns (Some (lit "key")),
     (first_manager, snd (snd (change_api_key enter_key (shown, stocked [accepted]))))).
Proof.
  split; [reflexivity|].
  destruct (changed_key_is_stored (P := whole_floats)
       (FernetLaws0 := ReferenceLaws.shift_laws) enter_key _ _ _ _ _
       (run_parts (change_api_key enter_key (shown, stocked [accepted]))))
    as ((_ & _ & _ & _ & _ & Hh) & Hc).
  assert (Hk : dialog_api_key
                 (fst (snd (wait_window enter_key (opened, stocked [accepted]))))
               = Some (lit "key")) by (vm_compute; reflexivity).
  assert (Hdi : APIKeyDialog_init (stocked [accepted])
                = (Returns opened, stocked [accepted])) by reflexivity.
  pose proof (Hc ltac:(intros f H; vm_compute in H; by injection H as <-)
                 ltac:(intros d w1 [= <- <-]; vm_compute; reflexivity)
                 _ _ _ _ _ Hdi
                 (run_parts (wait_window enter_key (opened, stocked [accepted]))))
    as Hkey.
  rewrite Hk in Hkey. destruct Hkey as (_ & _ & Hclient & Hl).
  split; [exact Hclient | split; [exact Hh|]]. apply Hl.
  apply (init_same_key_file (stocked [accepted]) (stocked [accepted]));
    [reflexivity | vm_compute; reflexivity].
Defined.

Lemma invalid_entry_is_refused_witness :
  exists a' w',
    calculate (symbol add) (window (lit "six") (lit "3"), online accepted)
    = (Returns tt, (a', w')) /\
    dialogs w' = [] ++ [(lit "Error", lit "Please enter valid numbers")] /\
    outbox w' = [].
Proof.
  destruct (invalid_entry_is_refused (P := whole_floats) (window (lit "six") (lit "3"))
              (online accepted) (symbol add))
    as (a' & w' & H & Hd & Ho & _).
  - left. reflexivity.
  - exists a', w'. repeat apply conj; assumption.
Defined.

Lemma answer_is_shown_witness :
  exists a' w',
    calculate (symbol divide)
      (window (lit "6") (lit "3"), online (Returns (answer (lit "2"))))
    = (Returns tt, (a', w')) /\
    result_label a' = lit "2.00" /\
    history_text a' = lit "6.0 / 3.0 = 2.00" ++ [10].
Proof.
  destruct (answer_is_shown (P := whole_floats) (window (lit "6") (lit "3"))
              (online (Returns (answer (lit "2")))) (symbol divide) 6 3 2
              (answer (lit "2")) []
              (default PNone (json (answer (lit "2")))) (PStr (lit "2")))
    as (a' & w' & H & Hr & Hh & _); try reflexivity.
  exists a', w'. repeat apply conj; assumption.
Defined.

Lemma number_only_from_parsed_answer_witness :
  exists r rest body o,
    wire (online (Returns (answer (lit "2")))) = Returns r :: rest /\
    status_code r = 200 /\ json r = Some body /\
    fst (first_text (P := whole_floats) (S:=unit) body tt) = Returns o /\
    fst (float_ (P := whole_floats) (S:=unit) o tt) = Returns 2.
Proof.
  apply (number_only_from_parsed_answer (P := whole_floats) client
           (online (Returns (answer (lit "2")))) 6 3 2 (symbol divide)).
  reflexivity.
Defined.

Lemma no_candidate_is_an_error_witness :
  fst (call_api (P := whole_floats) 6 3 (symbol divide)
         (client, online (Returns blocked)))
  = Raises (mk_exn Exception (lit "API call failed: index out of range")).
Proof.
  rewrite (no_candidate_is_an_error (P := whole_floats) client
             (online (Returns blocked)) 6 3 (symbol divide) blocked []
             [(lit "candidates", PList [])]); reflexivity.
Defined.

Lemma one_request_per_calculation_witness :
  exists a' w',
    calculate (symbol multiply) (window (lit "6") (lit "0"), online accepted)
    = (Returns tt, (a', w')) /\
    outbox w' = [] ++ [sent (P := whole_floats) 6 0 (symbol multiply) client] /\
    wire w' = [].
Proof.
  apply (one_request_per_calculation (P := whole_floats) (window (lit "6") (lit "0"))
           (online accepted) (symbol multiply) 6 0); [reflexivity | reflexivity |].
  left. discriminate.
Defined.

Lemma error_box_names_cause_witness :
  exists a' w',
    calculate (symbol add) (window (lit "6") (lit "3"), online denied)
    = (Returns tt, (a', w')) /\
    dialogs w' = [] ++ [(lit "Error", lit "API call failed: API Error: 403")] /\
    history_text a' = [] /\ result_label a' = lit "Result will appear here".
Proof.
  apply (error_box_names_cause (P := whole_floats) (window (lit "6") (lit "3"))
           (online denied) (symbol add) 6 3 denied []); try reflexivity.
  discriminate.
Defined.
